(** * pi_ADC: bit-banged readout of the ADS7886 converter

    A shallow embedding of [pi_ADC.py].  The script drives the converter's
    clock pin by hand, samples the data pin after every clock pulse, looks
    for the four leading zero bits of a conversion, reads [resolution] data
    bits, converts them to millivolts and appends the reading to a file when
    it is above a software threshold.

    The hardware is the environment of the program.  It is modelled by the
    level the converter drives on SDO as a function of the number of falling
    clock edges it has seen so far; the program state records the level last
    commanded on the clock pin, the number of falling edges produced, the
    GPIO calls made, the lines written to the file and to the terminal. *)

From Stdlib Require Import List Bool Arith ZArith QArith Qpower Lia Lqa String
  Floats.
Import ListNotations.

Local Open Scope nat_scope.

(** ** GPIO and program state *)

Inductive level : Set := LOW | HIGH.

(** One entry per GPIO call on the two pins the protocol uses. *)
Inductive event : Set :=
| ClockOut (l : level)          (* GPIO.output(clockPin, l) *)
| SdoIn (k : nat) (b : bool).   (* GPIO.input(sdoPin) gave b, after k falling edges *)

(** What the script prints. *)
Inductive message : Set :=
| MsgStarting                   (* 'Starting ADC' *)
| MsgStarted                    (* 'ADC started!' *)
| MsgMilliVolts (v : Q)         (* str(validData)+" mV" *)
| MsgDone.                      (* "Done" *)

(** Calls on the file object [ADC_file]. *)
Inductive file_op : Set :=
| FWrite (dt_string : string) (validData : Q)  (* write("%s %f\n" % (...)) *)
| FClose.                                      (* close() *)

Record State : Set := mkState {
  clock : level;                (* level last commanded on clockPin *)
  edges : nat;                  (* falling edges seen by the converter *)
  trace : list event;           (* GPIO calls, oldest first *)
  ADC_file : list file_op;      (* calls made on ADC_file, oldest first *)
  stdout : list message;        (* lines printed *)
  now_calls : nat               (* calls of datetime.now() so far *)
}.

(** Exceptions the modelled fragment can raise. *)
Inductive exn : Set :=
| NameError (name : string)
| IndexError
| TypeError
| OverflowError
| KeyboardInterrupt.

(** Result of running a statement: it returns, it raises, or the loop bound
    given to the model was not enough to see it return. *)
Inductive outcome (A : Type) : Type :=
| Ret (a : A)
| Raise (e : exn) (st : State)
| OutOfFuel.

Arguments Ret {A} a.
Arguments Raise {A} e st.
Arguments OutOfFuel {A}.

Definition bind {A B : Type} (m : outcome A) (k : A -> outcome B) : outcome B :=
  match m with
  | Ret a => k a
  | Raise e st => Raise e st
  | OutOfFuel => OutOfFuel
  end.

Notation "x <- m ;; k" := (bind m (fun x => k))
  (at level 61, m at next level, right associativity).

(** Module-level constants of the script. *)
Record Config : Set := mkConfig {
  vref : Q;          (* Vref for ADC in mV *)
  resolution : nat;  (* ADC resolution in bits *)
  offset : Q;        (* mV of voltage offset *)
  threshold : Q      (* minimum event voltage to record in mV *)
}.

Definition pi_ADC_config : Config :=
  {| vref := 3300; resolution := 12; offset := 0; threshold := 200 |}.

(** [GPIO.output(clockPin, l)].  The converter shifts its next bit onto SDO
    when the clock goes from high to low. *)
Definition GPIO_output (l : level) (st : State) : State :=
  {| clock := l;
     edges := match clock st, l with
              | HIGH, LOW => S (edges st)
              | _, _ => edges st
              end;
     trace := trace st ++ [ClockOut l];
     ADC_file := ADC_file st;
     stdout := stdout st;
     now_calls := now_calls st |}.

Definition print (m : message) (st : State) : State :=
  {| clock := clock st;
     edges := edges st;
     trace := trace st;
     ADC_file := ADC_file st;
     stdout := stdout st ++ [m];
     now_calls := now_calls st |}.

(** The two statements [GPIO.output(clockPin, GPIO.LOW)];
    [GPIO.output(clockPin, GPIO.HIGH)] that every loop of the script runs. *)
Definition pulse (st : State) : State :=
  GPIO_output HIGH (GPIO_output LOW st).

(** Index, in the converter's output, of the bit that the next pulse puts on
    SDO: a pulse from a high clock makes a new falling edge, a pulse from a
    low clock (only possible before the first pulse) does not. *)
Definition ahead (st : State) : nat :=
  match clock st with
  | HIGH => S (edges st)
  | LOW => edges st
  end.

(** [for _i in range(n): pulse] *)
Fixpoint pulses (n : nat) (st : State) : State :=
  match n with
  | O => st
  | S n' => pulses n' (pulse st)
  end.

Section Program.

(** [sdo k]: level of SDO once the converter has seen [k] falling edges. *)
Variable sdo : nat -> bool.

(** [now k]: the formatted result of the [k]-th call of [datetime.now()]. *)
Variable now : nat -> string.

Variable cfg : Config.

(** [GPIO.input(sdoPin)] *)
Definition GPIO_input (st : State) : bool * State :=
  let b := sdo (edges st) in
  (b, {| clock := clock st;
         edges := edges st;
         trace := trace st ++ [SdoIn (edges st) b];
         ADC_file := ADC_file st;
         stdout := stdout st;
         now_calls := now_calls st |}).

(** The inner loop of [waitForData], lines 67-71: [n] more pulses, each
    followed by a sample; a high sample clears [dataDetected] and the loop
    goes on to its last iteration all the same. *)
Fixpoint confirm (n : nat) (dataDetected : bool) (st : State) : bool * State :=
  match n with
  | O => (dataDetected, st)
  | S n' =>
      let st1 := pulse st in
      let (b, st2) := GPIO_input st1 in
      confirm n' (if b then false else dataDetected) st2
  end.

(** Body of the [while not dataDetected] loop, lines 60-71; the result is the
    value of [dataDetected] at the end of the iteration. *)
Definition wait_body (st : State) : bool * State :=
  let st1 := pulse st in
  let (b, st2) := GPIO_input st1 in
  if negb b then confirm 3 true st2 else (false, st2).

(** [waitForData()], lines 56-71.  [fuel] bounds the iterations of the
    [while] loop. *)
Fixpoint waitForData (fuel : nat) (st : State) : outcome State :=
  match fuel with
  | O => OutOfFuel
  | S fuel' =>
      let (dataDetected, st') := wait_body st in
      if dataDetected then Ret st' else waitForData fuel' st'
  end.

(** [startADC()], lines 42-53. *)
Definition startADC (fuel : nat) (st : State) : outcome State :=
  st1 <- waitForData fuel (print MsgStarting st) ;;
  Ret (print MsgStarted (pulses 20 st1)).

(** *** Python lists of integers, as [readADC] uses them *)

Fixpoint update (n : nat) (v : Z) (l : list Z) : list Z :=
  match l, n with
  | [], _ => []
  | _ :: t, O => v :: t
  | h :: t, S n' => h :: update n' v t
  end.

(** [l[i] = v]: a negative index counts from the end, an index outside
    [-len(l), len(l)) raises [IndexError]. *)
Definition list_setitem (l : list Z) (i v : Z) : option (list Z) :=
  let n := Z.of_nat (List.length l) in
  if ((0 <=? i) && (i <? n))%Z then Some (update (Z.to_nat i) v l)
  else if ((- n <=? i) && (i <? 0))%Z then Some (update (Z.to_nat (n + i)) v l)
  else None.

(** [l[i]] for the non-negative indices that [range] produces. *)
Definition list_getitem (l : list Z) (i : nat) : option Z := nth_error l i.

(** [list(range(n))] *)
Definition range (n : nat) : list Z := map Z.of_nat (seq 0 n).

(** The reading loop, lines 80-83.  [for i in validDataList] walks the list
    by position [j] and stops when [j] reaches its length; the body stores the
    sample into the very list the loop is walking, at index [i], the element
    found at position [j].  [n] bounds the iterations. *)
Fixpoint read_loop (n j : nat) (validDataList : list Z) (st : State)
  : outcome (list Z * State) :=
  match n with
  | O => Ret (validDataList, st)
  | S n' =>
      match nth_error validDataList j with
      | None => Ret (validDataList, st)
      | Some i =>
          let st1 := pulse st in
          let (b, st2) := GPIO_input st1 in
          match list_setitem validDataList i (Z.b2z b) with
          | Some l' => read_loop n' (S j) l' st2
          | None => Raise IndexError st2
          end
      end
  end.

(** The summing loop, lines 86-88: [i] runs over [range(resolution)],
    [n] is the number of iterations left.  Python sums binary64 numbers;
    the sum is taken here on rationals, which is the same number as long as
    binary64 does not round, that is up to 53 bits (see [Binary64] and
    [binary64_sum_exact] below for the sum on binary64 numbers). *)
Fixpoint sum_loop (n i : nat) (validDataList : list Z) (validData : Q)
  : option Q :=
  match n with
  | O => Some validData
  | S n' =>
      match list_getitem validDataList i with
      | Some d =>
          sum_loop n' (S i) validDataList
            (validData + inject_Z d
               * 2 ^ (Z.of_nat (resolution cfg) - Z.of_nat i - 1))%Q
      | None => None
      end
  end.

(** Line 91, on rationals: the number Python computes in binary64 whenever
    that computation does not round, as with the constants of the script
    (see [binary64_exact] below). *)
Definition toVoltage (validData : Q) : Q :=
  ((validData / 2 ^ Z.of_nat (resolution cfg)) * vref cfg + offset cfg)%Q.

(** [datetime.now().strftime(...)] *)
Definition datetime_now (st : State) : string * State :=
  (now (now_calls st),
   {| clock := clock st;
      edges := edges st;
      trace := trace st;
      ADC_file := ADC_file st;
      stdout := stdout st;
      now_calls := S (now_calls st) |}).

(** [ADC_file.write("%s %f\n" % (dt_string, validData))] *)
Definition ADC_file_write (dt_string : string) (validData : Q) (st : State)
  : State :=
  {| clock := clock st;
     edges := edges st;
     trace := trace st;
     ADC_file := ADC_file st ++ [FWrite dt_string validData];
     stdout := stdout st;
     now_calls := now_calls st |}.

(** [ADC_file.close()] *)
Definition ADC_file_close (st : State) : State :=
  {| clock := clock st;
     edges := edges st;
     trace := trace st;
     ADC_file := ADC_file st ++ [FClose];
     stdout := stdout st;
     now_calls := now_calls st |}.

(** The local variables of [readADC] when it returns. *)
Record Frame : Set := mkFrame {
  validDataList : list Z;
  rawData : Q;        (* [validData] after the summing loop *)
  validData : Q;      (* [validData] after line 91 *)
  dt_string : string
}.

(** Python's float power [2 ** e] raises [OverflowError] once the result
    leaves the binary64 range, that is from [e = 1024] on. *)
Definition pow_overflow (e : nat) : bool := 1024 <=? e.

(** [readADC()], lines 74-99, together with its local variables.  The
    power of line 88 is first taken with exponent [resolution - 1], that of
    line 91 with exponent [resolution]. *)
Definition readADC_frame (fuel : nat) (st : State) : outcome (Frame * State) :=
  st1 <- waitForData fuel st ;;
  r <- read_loop (resolution cfg) 0 (range (resolution cfg)) st1 ;;
  let (l, st2) := r : list Z * State in
  if pow_overflow (resolution cfg - 1) then Raise OverflowError st2 else
  match sum_loop (resolution cfg) 0 l 0 with
  | None => Raise IndexError st2
  | Some raw =>
      if pow_overflow (resolution cfg) then Raise OverflowError st2 else
      let v := toVoltage raw in
      let (dt, st3) := datetime_now st2 in
      let fr := {| validDataList := l; rawData := raw;
                   validData := v; dt_string := dt |} in
      if negb (Qle_bool v (threshold cfg))
      then Ret (fr, ADC_file_write dt v (print (MsgMilliVolts v) st3))
      else Ret (fr, st3)
  end.

(** [readADC()] as its caller sees it: the frame is gone. *)
Definition readADC (fuel : nat) (st : State) : outcome State :=
  r <- readADC_frame fuel st ;; Ret (snd r).

(** *** [main] and its [except] clause *)

(** Values bound to names. *)
Inductive value : Set :=
| VNum (q : Q)
| VStr (s : string)
| VObj.            (* a module, function, class or file object *)

(** The names bound at module level when [main()] is called, lines 14-102.
    No function of the script has a [global] statement, so none of them adds
    to this dictionary. *)
Definition module_globals : list (string * value) :=
  [ ("time", VObj); ("GPIO", VObj); ("datetime", VObj);
    ("vref", VNum (vref cfg));
    ("resolution", VNum (inject_Z (Z.of_nat (resolution cfg))));
    ("offset", VNum (offset cfg)); ("threshold", VNum (threshold cfg));
    ("sleepTime", VNum (3 # 1000));
    ("clockPin", VNum 31); ("sdoPin", VNum 33); ("holdPin", VNum 29);
    ("ADC_file", VObj); ("startADC", VObj); ("waitForData", VObj);
    ("readADC", VObj); ("main", VObj) ]%string.

Fixpoint lookup (name : string) (d : list (string * value)) : option value :=
  match d with
  | [] => None
  | (k, v) :: d' => if String.eqb k name then Some v else lookup name d'
  end.

(** Reading a name inside [main]: [main] assigns no variable, so every name
    in its body is looked up in the module's dictionary. *)
Definition load_name (name : string) (st : State) : outcome value :=
  match lookup name module_globals with
  | Some v => Ret v
  | None => Raise (NameError name) st
  end.

(** The [except] clause of [main], lines 111-114, read as the three
    statements it is meant to hold (line 112 is indented with tab
    characters where lines 113 and 114 have spaces). *)
Definition except_clause (st : State) : outcome State :=
  _f <- load_name "ADC_file" st ;;
  dt <- load_name "dt_string" st ;;
  v <- load_name "validData" st ;;
  match dt, v with
  | VStr dt, VNum v =>
      Ret (print MsgDone (ADC_file_close (ADC_file_write dt v st)))
  | _, _ => Raise TypeError st
  end.

(** The [while True] loop of [main] up to the exception that ends it:
    [cycles] calls of [readADC] return before it is delivered. *)
Fixpoint acquisition (cycles fuel : nat) (st : State) : outcome State :=
  match cycles with
  | O => Ret st
  | S c => st1 <- readADC fuel st ;; acquisition c fuel st1
  end.

(** [main()], lines 102-114, for the runs in which the exception that ends
    the loop arrives between two readings, after [cycles] of them.  An
    exception raised by [readADC] itself is caught by the same clause; one
    raised by [startADC], called before the [try], is not.  [main_i] below
    lets the exception arrive at any moment. *)
Definition main (cycles fuel : nat) (st : State) : outcome State :=
  st1 <- startADC fuel st ;;
  match acquisition cycles fuel st1 with
  | Ret st2 => except_clause st2
  | Raise _ st2 => except_clause st2
  | OutOfFuel => OutOfFuel
  end.

End Program.

(** ** The clock line and the bits it shifts out *)

Section Readout.

Variable sdo : nat -> bool.

(** One pulse followed by one sample, [n] times over: the pattern shared by
    all three loops that read SDO. *)
Fixpoint sampled (n : nat) (st : State) : State :=
  match n with
  | O => st
  | S n' => sampled n' (snd (GPIO_input sdo (pulse st)))
  end.

(** The [i]-th bit the converter presents to an operation started in [st]. *)
Definition fed (st : State) (i : nat) : bool := sdo (ahead st + i).

(** The GPIO calls of one pulse-and-sample step at bit [k]. *)
Definition step_events (k : nat) : list event :=
  [ClockOut LOW; ClockOut HIGH; SdoIn k (sdo k)].

(** Four zero bits starting at bit [p]. *)
Definition frame_at (p : nat) : bool :=
  negb (sdo p) && negb (sdo (p + 1)) && negb (sdo (p + 2)) && negb (sdo (p + 3)).

(** Bits one iteration of the [while] loop consumes when it starts at [p]. *)
Definition stride (p : nat) : nat := if sdo p then 1 else 4.

(** Level last commanded on the clock pin according to the list of calls. *)
Fixpoint last_commanded (tr : list event) (before : option level)
  : option level :=
  match tr with
  | [] => before
  | ClockOut l :: tr' => last_commanded tr' (Some l)
  | SdoIn _ _ :: tr' => last_commanded tr' before
  end.

(** Samples among a list of calls. *)
Fixpoint samples (tr : list event) : list (nat * bool) :=
  match tr with
  | [] => []
  | ClockOut _ :: tr' => samples tr'
  | SdoIn k b :: tr' => (k, b) :: samples tr'
  end.

(** Commands of a low level among a list of calls. *)
Fixpoint lows (tr : list event) : nat :=
  match tr with
  | [] => 0
  | ClockOut LOW :: tr' => S (lows tr')
  | _ :: tr' => lows tr'
  end.

Lemma pulse_clock (st : State) : clock (pulse st) = HIGH.
Proof. reflexivity. Qed.

Lemma pulse_edges (st : State) : edges (pulse st) = ahead st.
Proof. unfold pulse, ahead, GPIO_output; simpl. now destruct (clock st). Qed.

Lemma pulse_trace (st : State) :
  trace (pulse st) = trace st ++ [ClockOut LOW; ClockOut HIGH].
Proof. unfold pulse, GPIO_output; simpl. now rewrite <- app_assoc. Qed.

Lemma step_input (st : State) :
  fst (GPIO_input sdo (pulse st)) = sdo (ahead st).
Proof. unfold GPIO_input. cbn [fst]. now rewrite pulse_edges. Qed.

Lemma step_pair (st : State) :
  GPIO_input sdo (pulse st) = (sdo (ahead st), sampled 1 st).
Proof.
  rewrite (surjective_pairing (GPIO_input sdo (pulse st))).
  now rewrite step_input.
Qed.

Lemma sampled_S (n : nat) (st : State) :
  sampled (S n) st = sampled n (sampled 1 st).
Proof. reflexivity. Qed.

Lemma sampled_add (n m : nat) (st : State) :
  sampled (n + m) st = sampled m (sampled n st).
Proof.
  revert st; induction n as [|n IH]; intros st; [reflexivity|].
  cbn [Nat.add sampled]. apply IH.
Qed.

Lemma sampled_1_clock (st : State) : clock (sampled 1 st) = HIGH.
Proof. reflexivity. Qed.

Lemma sampled_1_edges (st : State) : edges (sampled 1 st) = ahead st.
Proof. cbn [sampled snd GPIO_input edges]. apply pulse_edges. Qed.

Lemma sampled_1_ahead (st : State) : ahead (sampled 1 st) = S (ahead st).
Proof. unfold ahead at 1. now rewrite sampled_1_clock, sampled_1_edges. Qed.

Lemma sampled_1_trace (st : State) :
  trace (sampled 1 st) = trace st ++ step_events (ahead st).
Proof.
  cbn [sampled snd GPIO_input trace]. rewrite pulse_trace, pulse_edges.
  now rewrite <- app_assoc.
Qed.

Lemma sampled_ahead (n : nat) (st : State) :
  ahead (sampled n st) = ahead st + n.
Proof.
  revert st; induction n as [|n IH]; intros st.
  - cbn [sampled]. lia.
  - rewrite sampled_S, IH, sampled_1_ahead. lia.
Qed.

Lemma sampled_clock (n : nat) (st : State) :
  0 < n -> clock (sampled n st) = HIGH.
Proof.
  revert st; induction n as [|n IH]; intros st Hn; [lia|].
  rewrite sampled_S. destruct n as [|n].
  - reflexivity.
  - apply IH. lia.
Qed.

Lemma sampled_trace (n : nat) (st : State) :
  trace (sampled n st) = trace st ++ flat_map step_events (seq (ahead st) n).
Proof.
  revert st; induction n as [|n IH]; intros st.
  - cbn. now rewrite app_nil_r.
  - rewrite sampled_S, IH, sampled_1_trace, sampled_1_ahead.
    cbn [seq flat_map]. now rewrite <- app_assoc.
Qed.

Lemma sampled_quiet (n : nat) (st : State) :
  ADC_file (sampled n st) = ADC_file st
  /\ stdout (sampled n st) = stdout st
  /\ now_calls (sampled n st) = now_calls st.
Proof.
  revert st; induction n as [|n IH]; intros st; [now cbn|].
  rewrite sampled_S. destruct (IH (sampled 1 st)) as (-> & -> & ->).
  now cbn.
Qed.

Lemma last_commanded_app (tr1 tr2 : list event) (b : option level) :
  last_commanded (tr1 ++ tr2) b = last_commanded tr2 (last_commanded tr1 b).
Proof.
  revert b; induction tr1 as [|[l|k v] tr1 IH]; intros b; cbn; auto.
Qed.

Lemma samples_app (tr1 tr2 : list event) :
  samples (tr1 ++ tr2) = samples tr1 ++ samples tr2.
Proof.
  induction tr1 as [|[l|k v] tr1 IH]; cbn; auto. now rewrite IH.
Qed.

Lemma lows_app (tr1 tr2 : list event) : lows (tr1 ++ tr2) = lows tr1 + lows tr2.
Proof.
  induction tr1 as [|[[|]|k v] tr1 IH]; cbn; auto.
Qed.

Lemma steps_last_commanded (p n : nat) (b : option level) :
  0 < n -> last_commanded (flat_map step_events (seq p n)) b = Some HIGH.
Proof.
  revert p b; induction n as [|n IH]; intros p b Hn; [lia|].
  cbn [seq flat_map step_events app last_commanded].
  destruct n as [|n]; [reflexivity|]. apply IH. lia.
Qed.

Lemma steps_samples (p n : nat) :
  samples (flat_map step_events (seq p n))
  = map (fun k => (k, sdo k)) (seq p n).
Proof.
  revert p; induction n as [|n IH]; intros p; [reflexivity|].
  cbn [seq flat_map step_events app samples map]. now rewrite IH.
Qed.

Lemma steps_lows (p n : nat) : lows (flat_map step_events (seq p n)) = n.
Proof.
  revert p; induction n as [|n IH]; intros p; [reflexivity|].
  cbn [seq flat_map step_events app lows]. now rewrite IH.
Qed.

(** *** One iteration of the marker search *)

Lemma confirm_3 (d : bool) (st : State) :
  confirm sdo 3 d st
  = (d && negb (fed st 0) && negb (fed st 1) && negb (fed st 2), sampled 3 st).
Proof.
  unfold fed. cbn [confirm].
  rewrite (step_pair st).
  rewrite (step_pair (sampled 1 st)).
  rewrite (step_pair (sampled 1 (sampled 1 st))).
  rewrite !sampled_1_ahead.
  replace (ahead st + 0) with (ahead st) by lia.
  replace (ahead st + 1) with (S (ahead st)) by lia.
  replace (ahead st + 2) with (S (S (ahead st))) by lia.
  f_equal.
  destruct d, (sdo (ahead st)), (sdo (S (ahead st))), (sdo (S (S (ahead st))));
    reflexivity.
Qed.

Lemma wait_body_eq (st : State) :
  wait_body sdo st = (frame_at (ahead st), sampled (stride (ahead st)) st).
Proof.
  unfold wait_body, frame_at, stride. rewrite step_pair.
  destruct (sdo (ahead st)) eqn:E; cbn [negb andb]; [reflexivity|].
  rewrite confirm_3. unfold fed. rewrite sampled_1_ahead.
  replace (S (ahead st) + 0) with (ahead st + 1) by lia.
  replace (S (ahead st) + 1) with (ahead st + 2) by lia.
  replace (S (ahead st) + 2) with (ahead st + 3) by lia.
  reflexivity.
Qed.

End Readout.

(** ** The marker search of [waitForData] *)

Section Synchronizer.

Variable sdo : nat -> bool.

(** Where the [while] loop finds its four zeros when its first iteration
    starts at bit [p]: the loop looks at bit [p], moves on by one bit when it
    is high and by four when it is low and one of the next three is high. *)
Fixpoint search (fuel p : nat) : option nat :=
  match fuel with
  | O => None
  | S fuel' =>
      if frame_at sdo p then Some p else search fuel' (p + stride sdo p)
  end.

Lemma frame_at_stride (p : nat) : frame_at sdo p = true -> stride sdo p = 4.
Proof.
  unfold frame_at, stride. destruct (sdo p); [discriminate|reflexivity].
Qed.

Lemma frame_at_zero (p : nat) :
  frame_at sdo p = true <-> forall i, i < 4 -> sdo (p + i) = false.
Proof.
  unfold frame_at. split.
  - intros H i Hi.
    apply andb_prop in H as [H H3]. apply andb_prop in H as [H H2].
    apply andb_prop in H as [H0 H1].
    apply negb_true_iff in H0, H1, H2, H3.
    destruct i as [|[|[|[|i]]]]; try lia; try assumption.
    now rewrite Nat.add_0_r.
  - intros H.
    pose proof (H 0) as H0. rewrite Nat.add_0_r in H0.
    rewrite H0, (H 1), (H 2), (H 3) by lia. reflexivity.
Qed.

Lemma stride_pos (p : nat) : 1 <= stride sdo p <= 4.
Proof. unfold stride. destruct (sdo p); lia. Qed.

Lemma waitForData_S (fuel : nat) (st : State) :
  waitForData sdo (S fuel) st
  = if frame_at sdo (ahead st) then Ret (sampled sdo 4 st)
    else waitForData sdo fuel (sampled sdo (stride sdo (ahead st)) st).
Proof.
  cbn [waitForData]. rewrite wait_body_eq.
  destruct (frame_at sdo (ahead st)) eqn:E; [|reflexivity].
  now rewrite (frame_at_stride _ E).
Qed.

Lemma search_ge (fuel p q : nat) : search fuel p = Some q -> p <= q.
Proof.
  revert p; induction fuel as [|f IH]; intros p H; [discriminate|].
  cbn [search] in H. destruct (frame_at sdo p).
  - injection H as <-. lia.
  - apply IH in H. lia.
Qed.

Lemma search_frame (fuel p q : nat) :
  search fuel p = Some q -> frame_at sdo q = true.
Proof.
  revert p; induction fuel as [|f IH]; intros p H; [discriminate|].
  cbn [search] in H. destruct (frame_at sdo p) eqn:E.
  - now injection H as <-.
  - now apply IH in H.
Qed.

Lemma search_more (fuel fuel' p q : nat) :
  search fuel p = Some q -> fuel <= fuel' -> search fuel' p = Some q.
Proof.
  revert fuel' p; induction fuel as [|f IH]; intros f' p H Hle; [discriminate|].
  destruct f' as [|f']; [lia|].
  cbn [search] in *. destruct (frame_at sdo p); [assumption|].
  apply IH; [assumption|lia].
Qed.

(** The first window of a search that does not end at once lies before the
    marker. *)
Lemma search_skip (fuel p q : nat) :
  search fuel p = Some q -> frame_at sdo p = false -> p + stride sdo p <= q.
Proof.
  destruct fuel as [|f]; [discriminate|].
  cbn [search]. intros H E. rewrite E in H. now apply search_ge in H.
Qed.

Lemma waitForData_search (fuel : nat) (st : State) :
  waitForData sdo fuel st
  = match search fuel (ahead st) with
    | Some q => Ret (sampled sdo (q - ahead st + 4) st)
    | None => OutOfFuel
    end.
Proof.
  revert st; induction fuel as [|f IH]; intros st; [reflexivity|].
  rewrite waitForData_S. cbn [search].
  destruct (frame_at sdo (ahead st)) eqn:E.
  - now rewrite Nat.sub_diag.
  - rewrite IH, sampled_ahead.
    destruct (search f (ahead st + stride sdo (ahead st))) as [q|] eqn:S;
      [|reflexivity].
    apply search_ge in S. rewrite <- sampled_add. do 2 f_equal. lia.
Qed.

(** Once the line stays low the search ends. *)
Lemma search_finds (N : nat) :
  (forall k, N <= k -> sdo k = false) ->
  forall fuel p, N - p < fuel -> exists q, search fuel p = Some q.
Proof.
  intros Hlow fuel; induction fuel as [|f IH]; intros p Hp; [lia|].
  cbn [search]. destruct (frame_at sdo p) eqn:E; [now exists p|].
  apply IH. pose proof (stride_pos p).
  destruct (Nat.le_gt_cases N p) as [Hle|Hgt]; [|lia].
  exfalso. assert (F : frame_at sdo p = true).
  { apply frame_at_zero. intros i _. apply Hlow. lia. }
  congruence.
Qed.

(** On a line that stays high the search goes on. *)
Lemma search_idle :
  (forall k, sdo k = true) -> forall fuel p, search fuel p = None.
Proof.
  intros Hhigh fuel; induction fuel as [|f IH]; intros p; [reflexivity|].
  cbn [search]. unfold frame_at. rewrite (Hhigh p). cbn. apply IH.
Qed.

End Synchronizer.

(** ** Reading and converting one sample *)

(** [sum over i < W of bit i * 2^(W-1-i)]: the value of [W] bits, first bit
    most significant. *)
Definition msb_first (W : nat) (bit : nat -> Z) : Z :=
  fold_right Z.add 0%Z
    (map (fun i => (bit i * 2 ^ (Z.of_nat W - Z.of_nat i - 1))%Z) (seq 0 W)).

(** The [W] bits of [raw], most significant first. *)
Definition encode (W : nat) (raw : Z) : list bool :=
  map (fun i => Z.testbit raw (Z.of_nat W - Z.of_nat i - 1)) (seq 0 W).

Lemma update_app (pre post : list Z) (x v : Z) :
  update (List.length pre) v (pre ++ x :: post) = pre ++ v :: post.
Proof. induction pre as [|h pre IH]; cbn; [reflexivity|now rewrite IH]. Qed.

Lemma list_setitem_app (pre post : list Z) (x v : Z) :
  list_setitem (pre ++ x :: post) (Z.of_nat (List.length pre)) v
  = Some (pre ++ v :: post).
Proof.
  unfold list_setitem. rewrite length_app. cbn [List.length].
  replace ((0 <=? Z.of_nat (List.length pre))%Z) with true
    by (symmetry; apply Z.leb_le; lia).
  replace ((Z.of_nat (List.length pre)
            <? Z.of_nat (List.length pre + S (List.length post)))%Z) with true
    by (symmetry; apply Z.ltb_lt; lia).
  cbn [andb]. now rewrite Nat2Z.id, update_app.
Qed.

Lemma inject_Z_pow2 (z : Z) : (0 <= z)%Z -> (inject_Z (2 ^ z) == 2 ^ z)%Q.
Proof.
  intros Hz. destruct z as [|p|p]; [reflexivity| |lia].
  assert (H1 : (1 ^ p = 1)%positive).
  { induction p as [|p IH] using Pos.peano_ind; [reflexivity|].
    now rewrite Pos.pow_succ_r, IH. }
  rewrite Qpower_decomp_pos, H1. reflexivity.
Qed.

Section Sample.

Variable sdo : nat -> bool.
Variable now : nat -> string.
Variable cfg : Config.

(** The samples of the reading loop, as the integers [GPIO.input] returns. *)
Definition data_bits (st : State) : list Z :=
  map (fun i => Z.b2z (fed sdo st i)) (seq 0 (resolution cfg)).

(** The walk over [validDataList] meets each index before the sample that
    overwrites it: with [pre] already stored, position [j] still holds [j]. *)
Lemma read_loop_inv (n : nat) :
  forall (pre : list Z) (st : State),
    read_loop sdo n (List.length pre)
      (pre ++ map Z.of_nat (seq (List.length pre) n)) st
    = Ret (pre ++ map (fun i => Z.b2z (fed sdo st i)) (seq 0 n),
           sampled sdo n st).
Proof.
  induction n as [|n IH]; intros pre st.
  - reflexivity.
  - cbn [seq map read_loop].
    rewrite nth_error_app2 by lia. rewrite Nat.sub_diag. cbn [nth_error].
    rewrite step_pair, list_setitem_app.
    specialize (IH (pre ++ [Z.b2z (sdo (ahead st))]) (sampled sdo 1 st)).
    rewrite length_app in IH. cbn [List.length] in IH.
    rewrite Nat.add_1_r, <- app_assoc in IH. cbn [app] in IH.
    rewrite IH, <- app_assoc. cbn [app]. do 3 f_equal. f_equal.
    + unfold fed. now rewrite Nat.add_0_r.
    + rewrite <- seq_shift, map_map. apply map_ext. intros i.
      unfold fed. rewrite sampled_1_ahead. do 2 f_equal. lia.
Qed.

Lemma read_loop_eq (st : State) :
  read_loop sdo (resolution cfg) 0 (range (resolution cfg)) st
  = Ret (data_bits st, sampled sdo (resolution cfg) st).
Proof. exact (read_loop_inv (resolution cfg) [] st). Qed.

Lemma sum_loop_inv (l : list Z) (n : nat) :
  forall (i : nat) (acc : Q),
    i + n <= List.length l -> List.length l = resolution cfg ->
    exists q,
      sum_loop cfg n i l acc = Some q
      /\ (q == acc + inject_Z (fold_right Z.add 0%Z
            (map (fun k => (nth k l 0 * 2 ^ (Z.of_nat (resolution cfg)
                                             - Z.of_nat k - 1))%Z)
                 (seq i n))))%Q.
Proof.
  induction n as [|n IH]; intros i acc Hi Hl.
  - exists acc. split; [reflexivity|]. cbn. unfold inject_Z. ring.
  - cbn [sum_loop]. unfold list_getitem.
    destruct (nth_error l i) as [d|] eqn:E;
      [|apply nth_error_None in E; lia].
    destruct (IH (S i) (acc + inject_Z d
                * 2 ^ (Z.of_nat (resolution cfg) - Z.of_nat i - 1))%Q)
      as (q & Hq & Heq); [lia|assumption|].
    exists q. split; [assumption|]. rewrite Heq.
    cbn [seq map fold_right].
    rewrite (nth_error_nth _ _ 0%Z E).
    rewrite inject_Z_plus, inject_Z_mult.
    rewrite inject_Z_pow2 by lia. ring.
Qed.

(** [validData] after the summing loop. *)
Definition raw_value (st : State) : Q :=
  match sum_loop cfg (resolution cfg) 0 (data_bits st) 0 with
  | Some q => q
  | None => 0
  end.

Lemma data_bits_length (st : State) :
  List.length (data_bits st) = resolution cfg.
Proof. unfold data_bits. now rewrite length_map, length_seq. Qed.

Lemma sum_loop_eq (st : State) :
  sum_loop cfg (resolution cfg) 0 (data_bits st) 0 = Some (raw_value st).
Proof.
  unfold raw_value.
  destruct (sum_loop_inv (data_bits st) (resolution cfg) 0 0)
    as (q & -> & _); rewrite ?data_bits_length; auto.
Qed.

Lemma raw_value_eq (st : State) :
  (raw_value st
   == inject_Z (msb_first (resolution cfg) (fun i => Z.b2z (fed sdo st i))))%Q.
Proof.
  destruct (sum_loop_inv (data_bits st) (resolution cfg) 0 0)
    as (q & Hq & Heq); rewrite ?data_bits_length; auto.
  unfold raw_value. rewrite Hq, Heq, Qplus_0_l. unfold msb_first.
  apply inject_Z_injective. f_equal. apply map_ext_in. intros k Hk.
  apply in_seq in Hk. f_equal. unfold data_bits.
  rewrite (nth_indep _ 0%Z (Z.b2z (fed sdo st 0)))
    by (rewrite length_map, length_seq; lia).
  rewrite (map_nth (fun i => Z.b2z (fed sdo st i))).
  now rewrite seq_nth by lia.
Qed.

(** The local variables [readADC] ends with when the marker search leaves
    the program in [st1]. *)
Definition frame_after (st1 : State) : Frame :=
  {| validDataList := data_bits st1;
     rawData := raw_value st1;
     validData := toVoltage cfg (raw_value st1);
     dt_string := now (now_calls st1) |}.

(** The test of line 97. *)
Definition recorded (st1 : State) : bool :=
  negb (Qle_bool (toVoltage cfg (raw_value st1)) (threshold cfg)).

(** The state [readADC] ends in. *)
Definition finish (st1 : State) : State :=
  let st3 := snd (datetime_now now (sampled sdo (resolution cfg) st1)) in
  if recorded st1
  then ADC_file_write (now (now_calls st1)) (toVoltage cfg (raw_value st1))
         (print (MsgMilliVolts (toVoltage cfg (raw_value st1))) st3)
  else st3.

(** What [readADC] does once the marker search has left the program in
    [st1]: with a resolution of 1024 bits or more it raises after its
    reading loop, otherwise it returns. *)
Definition after_marker (st1 : State) : outcome (Frame * State) :=
  if pow_overflow (resolution cfg)
  then Raise OverflowError (sampled sdo (resolution cfg) st1)
  else Ret (frame_after st1, finish st1).

Lemma pow_overflow_pred (e : nat) :
  pow_overflow (e - 1) = true -> pow_overflow e = true.
Proof. unfold pow_overflow. rewrite !Nat.leb_le. lia. Qed.

Lemma readADC_frame_eq (fuel : nat) (st : State) :
  readADC_frame sdo now cfg fuel st
  = (st1 <- waitForData sdo fuel st ;; after_marker st1).
Proof.
  unfold readADC_frame, after_marker.
  destruct (waitForData sdo fuel st) as [st1| |]; cbn [bind]; try reflexivity.
  rewrite read_loop_eq. cbn [bind].
  destruct (pow_overflow (resolution cfg - 1)) eqn:P1.
  { now rewrite (pow_overflow_pred _ P1). }
  rewrite sum_loop_eq.
  destruct (pow_overflow (resolution cfg)); [reflexivity|].
  unfold finish, frame_after, recorded, datetime_now. cbn [snd].
  destruct (sampled_quiet sdo (resolution cfg) st1) as (_ & _ & ->).
  destruct (negb _); reflexivity.
Qed.

Lemma readADC_eq (fuel : nat) (st : State) :
  readADC sdo now cfg fuel st
  = (st1 <- waitForData sdo fuel st ;;
     r <- after_marker st1 ;; Ret (snd r)).
Proof.
  unfold readADC. rewrite readADC_frame_eq.
  destruct (waitForData sdo fuel st); reflexivity.
Qed.

Lemma after_marker_ret (st1 st' : State) (fr : Frame) :
  after_marker st1 = Ret (fr, st') ->
  pow_overflow (resolution cfg) = false
  /\ fr = frame_after st1 /\ st' = finish st1.
Proof.
  unfold after_marker. destruct (pow_overflow (resolution cfg));
    [discriminate|].
  intros H. injection H as <- <-. auto.
Qed.

Lemma finish_gpio (st1 : State) :
  clock (finish st1) = clock (sampled sdo (resolution cfg) st1)
  /\ edges (finish st1) = edges (sampled sdo (resolution cfg) st1)
  /\ trace (finish st1) = trace (sampled sdo (resolution cfg) st1).
Proof. unfold finish. destruct (recorded st1); now cbn. Qed.

End Sample.

(** ** The arithmetic of [readADC] in binary64

    Python computes lines 86-97 on floats.  The definitions below repeat them
    on Rocq's binary64 numbers, with the integer constants of the script
    converted as Python converts them; they are compared further down with
    the computation on rationals used above. *)

Module Binary64.

(** [float(z)] for the small non-negative integers of the script. *)
Definition of_int (z : Z) : float := PrimFloat.of_uint63 (Uint63.of_Z z).

(** [2 ** e] *)
Definition pow2 (e : Z) : float := Z.ldexp 1%float e.

Fixpoint sum_loop (W n i : nat) (validDataList : list Z) (validData : float)
  : option float :=
  match n with
  | O => Some validData
  | S n' =>
      match list_getitem validDataList i with
      | Some d =>
          sum_loop W n' (S i) validDataList
            (validData + of_int d * pow2 (Z.of_nat W - Z.of_nat i - 1))%float
      | None => None
      end
  end.

Definition toVoltage (W : nat) (vref offset : Z) (validData : float) : float :=
  (validData / pow2 (Z.of_nat W) * of_int vref + of_int offset)%float.

(** Lines 86-91 on the list the reading loop has filled. *)
Definition voltage (W : nat) (vref offset : Z) (l : list Z) : option float :=
  option_map (toVoltage W vref offset) (sum_loop W W 0 l 0%float).

(** Line 97. *)
Definition above (threshold : Z) (validData : float) : bool :=
  (of_int threshold <? validData)%float.

(** The rational a finite binary64 number stands for. *)
Definition exact (f : float) : option Q :=
  match Prim2SF f with
  | SpecFloat.S754_zero _ => Some 0%Q
  | SpecFloat.S754_finite s m e =>
      Some ((if s then -1 else 1) * inject_Z (Z.pos m) * 2 ^ e)%Q
  | _ => None
  end.

End Binary64.

(** The same lines on rationals, for a configuration of integers. *)
Definition int_config (W : nat) (vref offset threshold : Z) : Config :=
  {| vref := inject_Z vref; resolution := W;
     offset := inject_Z offset; threshold := inject_Z threshold |}.

Definition voltage (cfg : Config) (l : list Z) : option Q :=
  option_map (toVoltage cfg) (sum_loop cfg (resolution cfg) 0 l 0).

(** All lists of [n] samples. *)
Fixpoint all_bits (n : nat) : list (list Z) :=
  match n with
  | O => [[]]
  | S n' => map (cons 0%Z) (all_bits n') ++ map (cons 1%Z) (all_bits n')
  end.

(** Binary64 and rational arithmetic agree on the list [l]: same voltage,
    same outcome of the threshold test. *)
Definition agree (W : nat) (vref offset threshold : Z) (l : list Z) : bool :=
  match Binary64.voltage W vref offset l,
        voltage (int_config W vref offset threshold) l with
  | Some f, Some q =>
      match Binary64.exact f with
      | Some q' =>
          Qeq_bool q q'
          && Bool.eqb (Binary64.above threshold f)
                      (negb (Qle_bool q (inject_Z threshold)))
      | None => false
      end
  | _, _ => false
  end.

Lemma all_bits_complete (l : list Z) :
  Forall (fun d => d = 0%Z \/ d = 1%Z) l -> In l (all_bits (List.length l)).
Proof.
  induction 1 as [|d l [-> | ->] _ IH]; cbn [List.length all_bits].
  - now left.
  - apply in_or_app. left. now apply in_map.
  - apply in_or_app. right. now apply in_map.
Qed.

(** With the constants of the script, no rounding takes place: for each of
    the 4096 possible readings the binary64 voltage is the rational one. *)
Lemma binary64_exact (l : list Z) :
  List.length l = 12 -> Forall (fun d => d = 0%Z \/ d = 1%Z) l ->
  agree 12 3300 0 200 l = true.
Proof.
  intros Hlen Hbits. apply all_bits_complete in Hbits. rewrite Hlen in Hbits.
  assert (H : forallb (agree 12 3300 0 200) (all_bits 12) = true)
    by (vm_compute; reflexivity).
  rewrite forallb_forall in H. now apply H.
Qed.

(** ** Concrete lines and states used in the examples *)

(** The program before its first GPIO call: nothing driven, nothing
    written. *)
Definition boot : State :=
  {| clock := LOW; edges := 0; trace := []; ADC_file := [];
     stdout := []; now_calls := 0 |}.

(** A line that shows the given bits and then idles high (the pull-up). *)
Definition line (bits : list bool) : nat -> bool := fun k => nth k bits true.

(** A wall clock for the examples. *)
Definition stamp : nat -> string := fun _ => "03 11 2026 12:00:00:000000"%string.

(** The flush burst: [n] pulses without a sample. *)
Definition burst (n : nat) : list event :=
  List.concat (repeat [ClockOut LOW; ClockOut HIGH] n).

Lemma pulse_ahead (st : State) : ahead (pulse st) = S (ahead st).
Proof. unfold ahead at 1. now rewrite pulse_clock, pulse_edges. Qed.

Lemma pulses_ahead (n : nat) (st : State) : ahead (pulses n st) = ahead st + n.
Proof.
  revert st; induction n as [|n IH]; intros st; cbn [pulses]; [lia|].
  rewrite IH, pulse_ahead. lia.
Qed.

Lemma pulses_trace (n : nat) (st : State) :
  trace (pulses n st) = trace st ++ burst n.
Proof.
  revert st; induction n as [|n IH]; intros st; cbn [pulses].
  - unfold burst. cbn. now rewrite app_nil_r.
  - rewrite IH, pulse_trace, <- app_assoc. reflexivity.
Qed.

Lemma pulses_clock (n : nat) (st : State) :
  0 < n -> clock (pulses n st) = HIGH.
Proof.
  revert st; induction n as [|n IH]; intros st Hn; [lia|].
  cbn [pulses]. destruct n as [|n]; [reflexivity|]. apply IH. lia.
Qed.

Lemma burst_samples (n : nat) : samples (burst n) = [].
Proof. induction n as [|n IH]; [reflexivity|]. cbn. exact IH. Qed.

Lemma burst_lows (n : nat) : lows (burst n) = n.
Proof.
  induction n as [|n IH]; [reflexivity|].
  unfold burst in *. cbn. now rewrite IH.
Qed.

Lemma burst_last_commanded (n : nat) (b : option level) :
  0 < n -> last_commanded (burst n) b = Some HIGH.
Proof.
  revert b; induction n as [|n IH]; intros b Hn; [lia|].
  unfold burst in *. cbn. destruct n as [|n]; [reflexivity|]. apply IH. lia.
Qed.

(** What [waitForData] returns, in terms of the bits it was fed: the state
    after [n + 4] pulse-and-sample steps, the last four of which form the
    window of the iteration that ended the loop. *)
Lemma waitForData_ret (sdo : nat -> bool) (fuel : nat) (st st' : State) :
  waitForData sdo fuel st = Ret st' ->
  exists n,
    search sdo fuel (ahead st) = Some (ahead st + n)
    /\ st' = sampled sdo (n + 4) st
    /\ frame_at sdo (ahead st + n) = true.
Proof.
  rewrite waitForData_search.
  destruct (search sdo fuel (ahead st)) as [q|] eqn:S; [|discriminate].
  intros H. injection H as <-.
  pose proof (search_ge _ _ _ _ S). exists (q - ahead st).
  replace (ahead st + (q - ahead st)) with q by lia.
  split; [reflexivity|]. split; [reflexivity|]. eapply search_frame; eauto.
Qed.

Lemma waitForData_more (sdo : nat -> bool) (fuel fuel' : nat) (st st' : State) :
  waitForData sdo fuel st = Ret st' -> fuel <= fuel' ->
  waitForData sdo fuel' st = Ret st'.
Proof.
  rewrite !waitForData_search.
  destruct (search sdo fuel (ahead st)) as [q|] eqn:S; [|discriminate].
  intros H Hle. now rewrite (search_more _ _ _ _ _ S Hle).
Qed.

Lemma map_seq_offset {A : Type} (f : nat -> A) (p n : nat) :
  map f (seq p n) = map (fun i => f (p + i)) (seq 0 n).
Proof.
  revert p; induction n as [|n IH]; intros p; [reflexivity|].
  cbn [seq map]. rewrite Nat.add_0_r. f_equal.
  rewrite IH, <- seq_shift, map_map. apply map_ext. intros i. f_equal. lia.
Qed.

(** The samples a run of pulse-and-sample steps adds to the list of calls:
    the next [n] bits of the line, in order, each once. *)
Lemma sampled_samples (sdo : nat -> bool) (n : nat) (st : State) :
  samples (trace (sampled sdo n st))
  = samples (trace st)
    ++ map (fun i => (ahead st + i, fed sdo st i)) (seq 0 n).
Proof.
  rewrite sampled_trace, samples_app, steps_samples. f_equal.
  apply (map_seq_offset (fun k => (k, sdo k))).
Qed.

Lemma sampled_lows (sdo : nat -> bool) (n : nat) (st : State) :
  lows (trace (sampled sdo n st)) = lows (trace st) + n.
Proof. now rewrite sampled_trace, lows_app, steps_lows. Qed.

(** ** The frame synchronizer *)

(** The last four bits [waitForData] consumes are zeros. *)
Lemma waitForData_zeros (sdo : nat -> bool) (fuel : nat) (st st' : State) :
  waitForData sdo fuel st = Ret st' ->
  exists n,
    st' = sampled sdo (n + 4) st
    /\ search sdo fuel (ahead st) = Some (ahead st + n)
    /\ forall i, n <= i < n + 4 -> fed sdo st i = false.
Proof.
  intros H. apply waitForData_ret in H as (n & Hs & -> & F).
  exists n. split; [reflexivity|]. split; [exact Hs|].
  intros i Hi. unfold fed.
  replace (ahead st + i) with (ahead st + n + (i - n)) by lia.
  apply (proj1 (frame_at_zero sdo _) F). lia.
Qed.

(** The loop bound does not change where [waitForData] returns. *)
Lemma waitForData_unique (sdo : nat -> bool) (fuel1 fuel2 : nat)
  (st st1 st2 : State) :
  waitForData sdo fuel1 st = Ret st1 -> waitForData sdo fuel2 st = Ret st2 ->
  st1 = st2.
Proof.
  intros H1 H2. destruct (Nat.le_ge_cases fuel1 fuel2) as [Hle|Hle].
  - apply (waitForData_more _ _ _ _ _ H1) in Hle. congruence.
  - apply (waitForData_more _ _ _ _ _ H2) in Hle. congruence.
Qed.

(** The sequence of the specification's example. *)
Definition spec_sequence : list bool :=
  [true; false; false; false; true; false; false; false; false].

(** C1.  Whatever the line carries, when [waitForData] returns it has
    consumed some [n + 4] bits of which the last four are zero, so that the
    marker is four consecutive zeros with no one among them; every one it
    was fed lies before those four bits, hence at least four further bits
    follow any one and no zero seen before a one is part of the marker; the
    four zeros are found by an iteration of the loop that starts at bit [n]
    with nothing carried over: the loop run afresh from there returns after
    this single iteration, in the same state; and it returns nowhere else,
    whatever the loop bound. *)
Theorem waitForData_marker (sdo : nat -> bool) (fuel : nat) (st st' : State) :
  waitForData sdo fuel st = Ret st' ->
  exists n,
    st' = sampled sdo (n + 4) st
    /\ (forall i, n <= i < n + 4 -> fed sdo st i = false)
    /\ (forall i, i < n + 4 -> fed sdo st i = true -> i + 4 < n + 4)
    /\ waitForData sdo 1 (sampled sdo n st) = Ret st'
    /\ samples (trace st')
       = samples (trace st)
         ++ map (fun i => (ahead st + i, fed sdo st i)) (seq 0 (n + 4))
    /\ forall fuel2 st2, waitForData sdo fuel2 st = Ret st2 -> st2 = st'.
Proof.
  intros H. pose proof H as H'. apply waitForData_zeros in H' as (n & E & _ & Z4).
  exists n. split; [exact E|]. split; [exact Z4|]. split; [|split; [|split]].
  - intros i Hi Hone. destruct (Nat.lt_ge_cases i n) as [Hlt|Hge]; [lia|].
    rewrite Z4 in Hone by lia. discriminate.
  - rewrite waitForData_S, sampled_ahead.
    replace (frame_at sdo (ahead st + n)) with true.
    + now rewrite E, sampled_add.
    + symmetry. apply frame_at_zero. intros i Hi.
      replace (ahead st + n + i) with (ahead st + (n + i)) by lia.
      apply Z4. lia.
  - rewrite E. apply sampled_samples.
  - intros fuel2 st2 H2. exact (waitForData_unique _ _ _ _ _ _ H2 H).
Qed.

Lemma waitForData_marker_witness :
  waitForData (line spec_sequence) 3 boot
  = Ret (sampled (line spec_sequence) 9 boot)
  /\ exists n,
       sampled (line spec_sequence) 9 boot
       = sampled (line spec_sequence) (n + 4) boot
       /\ (forall i, n <= i < n + 4 -> fed (line spec_sequence) boot i = false)
       /\ (forall i, i < n + 4 ->
             fed (line spec_sequence) boot i = true -> i + 4 < n + 4)
       /\ waitForData (line spec_sequence) 1
            (sampled (line spec_sequence) n boot)
          = Ret (sampled (line spec_sequence) 9 boot)
       /\ samples (trace (sampled (line spec_sequence) 9 boot))
          = samples (trace boot)
            ++ map (fun i => (ahead boot + i, fed (line spec_sequence) boot i))
                 (seq 0 (n + 4))
       /\ forall fuel2 st2,
            waitForData (line spec_sequence) fuel2 boot = Ret st2 ->
            st2 = sampled (line spec_sequence) 9 boot.
Proof.
  split; [vm_compute; reflexivity|].
  apply (waitForData_marker (line spec_sequence) 3 boot).
  vm_compute; reflexivity.
Defined.

(** The example of the specification: on [1,0,0,0,1,0,0,0,0] the loop does
    not return on the first three zeros; it returns on the ninth bit. *)
Example waitForData_spec_sequence :
  waitForData (line spec_sequence) 2 boot = OutOfFuel
  /\ waitForData (line spec_sequence) 3 boot
     = Ret (sampled (line spec_sequence) 9 boot)
  /\ samples (trace (sampled (line spec_sequence) 9 boot))
     = [(0, true); (1, false); (2, false); (3, false); (4, true);
        (5, false); (6, false); (7, false); (8, false)].
Proof. split; [|split]; vm_compute; reflexivity. Qed.

(** Two zeros and a one, then two zeros: the two zeros before the one do not
    count, the loop is still searching after five bits. *)
Example waitForData_two_zeros_one :
  forall fuel st',
    waitForData (line [false; false; true; false; false]) fuel boot = Ret st' ->
    ahead boot + 5 < ahead st'.
Proof.
  intros fuel st' H. apply waitForData_zeros in H as (n & -> & _ & Z4).
  rewrite sampled_ahead.
  destruct (Nat.lt_ge_cases n 3) as [Hlt|Hge]; [|lia].
  exfalso. specialize (Z4 2 ltac:(lia)). discriminate Z4.
Qed.

(** A line whose second bit alone is high: a failed window [0,1,0,0]
    followed by zeros. *)
Definition glitch_line : nat -> bool := fun k => k =? 1.

(** C9.  When an iteration of the loop starts on a zero and one of the three
    bits after it is a one, the iteration still pulses the clock and samples
    SDO for every bit of the four-bit window and ends with [dataDetected]
    false: the search resumes at the fifth bit.  The marker on which
    [waitForData] later returns therefore starts at the fifth bit or after
    it, so that no zero of the failed window belongs to it; and when
    [waitForData] returns, the last four bits it consumed are zeros. *)
Theorem waitForData_failed_window (sdo : nat -> bool) (st : State) :
  fed sdo st 0 = false ->
  fed sdo st 1 = true \/ fed sdo st 2 = true \/ fed sdo st 3 = true ->
  wait_body sdo st = (false, sampled sdo 4 st)
  /\ trace (sampled sdo 4 st)
     = trace st ++ flat_map (step_events sdo) (seq (ahead st) 4)
  /\ (forall fuel,
        waitForData sdo (S fuel) st = waitForData sdo fuel (sampled sdo 4 st))
  /\ (forall fuel st',
        waitForData sdo fuel st = Ret st' ->
        exists n,
          4 <= n /\ st' = sampled sdo (n + 4) st
          /\ forall i, n <= i < n + 4 -> fed sdo st i = false).
Proof.
  unfold fed. rewrite Nat.add_0_r. intros H0 H123.
  assert (F : frame_at sdo (ahead st) = false).
  { unfold frame_at. rewrite H0.
    destruct H123 as [-> | [-> | ->]]; cbn;
      rewrite ?andb_false_r; reflexivity. }
  assert (S4 : stride sdo (ahead st) = 4) by (unfold stride; now rewrite H0).
  split; [|split; [|split]].
  - now rewrite wait_body_eq, F, S4.
  - apply sampled_trace.
  - intros fuel. now rewrite waitForData_S, F, S4.
  - intros fuel st' H. apply waitForData_zeros in H as (n & -> & Hs & Z4).
    exists n. split; [|split; [reflexivity|exact Z4]].
    apply search_skip in Hs; [|exact F]. lia.
Qed.

Lemma waitForData_failed_window_witness :
  wait_body glitch_line boot = (false, sampled glitch_line 4 boot)
  /\ trace (sampled glitch_line 4 boot)
     = trace boot ++ flat_map (step_events glitch_line) (seq (ahead boot) 4)
  /\ (forall fuel,
        waitForData glitch_line (S fuel) boot
        = waitForData glitch_line fuel (sampled glitch_line 4 boot))
  /\ waitForData glitch_line 2 boot = Ret (sampled glitch_line 8 boot)
  /\ (exists n,
        4 <= n /\ sampled glitch_line 8 boot = sampled glitch_line (n + 4) boot
        /\ forall i, n <= i < n + 4 -> fed glitch_line boot i = false).
Proof.
  destruct (waitForData_failed_window glitch_line boot) as (B & T & S & R).
  - reflexivity.
  - left. reflexivity.
  - assert (W : waitForData glitch_line 2 boot
                = Ret (sampled glitch_line 8 boot))
      by (vm_compute; reflexivity).
    split; [exact B|]. split; [exact T|]. split; [exact S|].
    split; [exact W|]. exact (R 2 _ W).
Defined.

(** On [0,1,0,0,0,0,0,0] the four zeros at bits 2 to 5 are not taken as the
    marker, since bits 2 and 3 belong to the failed window: the loop returns
    after bit 7.  If bit 6 is high instead, two iterations pass over those
    four zeros and the loop is still searching at bit 8. *)
Example waitForData_glitch :
  waitForData glitch_line 2 boot = Ret (sampled glitch_line 8 boot)
  /\ let l := line [false; true; false; false; false; false; true] in
     wait_body l boot = (false, sampled l 4 boot)
     /\ wait_body l (sampled l 4 boot) = (false, sampled l 8 boot).
Proof.
  split; [vm_compute; reflexivity|].
  cbv zeta. split; vm_compute; reflexivity.
Qed.

(** The state after [n] iterations of the [while] loop of [waitForData], had
    none of them ended it. *)
Fixpoint iterations (sdo : nat -> bool) (n : nat) (st : State) : State :=
  match n with
  | O => st
  | S n' => iterations sdo n' (snd (wait_body sdo st))
  end.

Lemma iterations_idle (idle : nat -> bool) :
  (forall k, idle k = true) ->
  forall n st, iterations idle n st = sampled idle n st.
Proof.
  intros Hhigh n; induction n as [|n IH]; intros st; [reflexivity|].
  cbn [iterations]. rewrite wait_body_eq. cbn [snd].
  unfold stride. rewrite Hhigh, IH. reflexivity.
Qed.

(** C10.  On a line [sdo] that is low from some bit [N] on, [waitForData]
    returns from every state, for every loop bound from [N - ahead st + 1]
    on; on any line, as soon as an iteration starts on a zero followed by
    three zeros it returns, after these four bits.  On a line [idle] that is
    always high it returns for no loop bound: every iteration ends with
    [dataDetected] false, and after [n] iterations the clock has been driven
    low [n] more times. *)
Theorem waitForData_termination (sdo idle : nat -> bool) (N : nat) :
  (forall k, N <= k -> sdo k = false) ->
  (forall k, idle k = true) ->
  (forall st, exists st',
      forall fuel, N - ahead st < fuel -> waitForData sdo fuel st = Ret st')
  /\ (forall (l : nat -> bool) st fuel,
        (forall i, i < 4 -> fed l st i = false) ->
        waitForData l (S fuel) st = Ret (sampled l 4 st))
  /\ (forall fuel st, waitForData idle fuel st = OutOfFuel)
  /\ (forall n st,
        fst (wait_body idle (iterations idle n st)) = false
        /\ lows (trace (iterations idle n st)) = lows (trace st) + n).
Proof.
  intros Hlow Hhigh. split; [|split; [|split]].
  - intros st.
    destruct (search_finds sdo N Hlow (S (N - ahead st)) (ahead st))
      as (q & Hq); [lia|].
    exists (sampled sdo (q - ahead st + 4) st). intros fuel Hfuel.
    rewrite waitForData_search.
    now rewrite (search_more sdo _ fuel _ _ Hq) by lia.
  - intros l st fuel Hz. rewrite waitForData_S.
    replace (frame_at l (ahead st)) with true; [reflexivity|].
    symmetry. now apply frame_at_zero.
  - intros fuel st. rewrite waitForData_search.
    now rewrite search_idle.
  - intros n st. rewrite iterations_idle by assumption. split.
    + rewrite wait_body_eq. cbn [fst]. unfold frame_at.
      now rewrite Hhigh.
    + apply sampled_lows.
Qed.

(** A line that is high for five bits and low ever after. *)
Definition settling_line : nat -> bool := fun k => k <? 5.

Lemma waitForData_termination_witness :
  (forall st, exists st',
      forall fuel,
        5 - ahead st < fuel -> waitForData settling_line fuel st = Ret st')
  /\ waitForData settling_line 1 (sampled settling_line 5 boot)
     = Ret (sampled settling_line 4 (sampled settling_line 5 boot))
  /\ (forall fuel st, waitForData (line []) fuel st = OutOfFuel)
  /\ (forall n st,
        fst (wait_body (line []) (iterations (line []) n st)) = false
        /\ lows (trace (iterations (line []) n st)) = lows (trace st) + n).
Proof.
  destruct (waitForData_termination settling_line (line []) 5)
    as (T1 & T2 & T3 & T4).
  - intros k Hk. unfold settling_line. apply Nat.ltb_ge. lia.
  - intros k. unfold line. destruct k; reflexivity.
  - split; [exact T1|]. split; [|split; [exact T3|exact T4]].
    apply T2. intros i Hi. reflexivity.
Defined.

(** From power-up, the settling line is searched bit by bit through its five
    ones and synchronizes on bits 5 to 8. *)
Example waitForData_settling :
  waitForData settling_line 5 boot = OutOfFuel
  /\ waitForData settling_line 6 boot = Ret (sampled settling_line 9 boot).
Proof. split; vm_compute; reflexivity. Qed.

(** ** The clock between operations, and the start-up *)

Section Operations.

Variable sdo : nat -> bool.
Variable now : nat -> string.
Variable cfg : Config.

(** [st'] is [st] after [m] pulse-and-sample steps as far as the two pins
    are concerned. *)
Definition gpio_run (st st' : State) (m : nat) : Prop :=
  trace st' = trace st ++ flat_map (step_events sdo) (seq (ahead st) m)
  /\ ahead st' = ahead st + m
  /\ clock st' = match m with O => clock st | S _ => HIGH end.

Lemma gpio_run_sampled (st : State) (m : nat) : gpio_run st (sampled sdo m st) m.
Proof.
  repeat split.
  - apply sampled_trace.
  - apply sampled_ahead.
  - destruct m; [reflexivity|]. apply sampled_clock. lia.
Qed.

Lemma gpio_run_trans (st1 st2 st3 : State) (m1 m2 : nat) :
  gpio_run st1 st2 m1 -> gpio_run st2 st3 m2 -> gpio_run st1 st3 (m1 + m2).
Proof.
  intros (T1 & A1 & C1) (T2 & A2 & C2). repeat split.
  - rewrite T2, T1, A1, <- app_assoc, seq_app, flat_map_app. reflexivity.
  - lia.
  - rewrite C2. destruct m2 as [|m2].
    + now rewrite Nat.add_0_r.
    + now rewrite Nat.add_succ_r.
Qed.

Lemma gpio_run_same (st st' : State) :
  clock st' = clock st -> edges st' = edges st -> trace st' = trace st ->
  gpio_run st st' 0.
Proof.
  intros C E T. repeat split.
  - cbn. now rewrite app_nil_r.
  - unfold ahead. rewrite C, E. lia.
  - assumption.
Qed.

Lemma gpio_run_clock (st st' : State) (m : nat) :
  gpio_run st st' m -> 0 < m -> clock st' = HIGH.
Proof. intros (_ & _ & C) Hm. rewrite C. destruct m; [lia|reflexivity]. Qed.

Lemma readADC_ret (fuel : nat) (st st' : State) :
  readADC sdo now cfg fuel st = Ret st' ->
  exists n,
    st' = finish sdo now cfg (sampled sdo (n + 4) st)
    /\ waitForData sdo fuel st = Ret (sampled sdo (n + 4) st).
Proof.
  rewrite readADC_eq.
  destruct (waitForData sdo fuel st) as [st1| |] eqn:W; try discriminate.
  cbn [bind]. destruct (after_marker sdo now cfg st1) as [[fr st2]| |] eqn:A;
    try discriminate.
  cbn [bind snd]. intros H. injection H as <-.
  apply after_marker_ret in A as (_ & _ & ->).
  apply waitForData_ret in W as (n & _ & -> & _). now exists n.
Qed.

Lemma readADC_gpio (fuel : nat) (st st' : State) :
  readADC sdo now cfg fuel st = Ret st' ->
  exists n, gpio_run st st' (n + 4 + resolution cfg).
Proof.
  intros H. apply readADC_ret in H as (n & -> & _). exists n.
  apply gpio_run_trans with (st2 := sampled sdo (n + 4) st);
    [apply gpio_run_sampled|].
  destruct (finish_gpio sdo now cfg (sampled sdo (n + 4) st)) as (C & E & T).
  destruct (gpio_run_sampled (sampled sdo (n + 4) st) (resolution cfg))
    as (T' & A' & C').
  repeat split.
  - now rewrite T.
  - rewrite <- A'. unfold ahead. now rewrite C, E.
  - now rewrite C.
Qed.

Lemma acquisition_gpio (cycles fuel : nat) :
  forall st st',
    acquisition sdo now cfg cycles fuel st = Ret st' ->
    exists m, gpio_run st st' m.
Proof.
  induction cycles as [|c IH]; intros st st' H.
  - injection H as <-. exists 0. now apply gpio_run_same.
  - cbn [acquisition] in H.
    destruct (readADC sdo now cfg fuel st) as [st1| |] eqn:R; try discriminate.
    cbn [bind] in H. apply readADC_gpio in R as (n & G1).
    apply IH in H as (m & G2).
    exists (n + 4 + resolution cfg + m). eapply gpio_run_trans; eassumption.
Qed.

Lemma gpio_run_samples (st st' : State) (m : nat) :
  gpio_run st st' m ->
  samples (trace st')
  = samples (trace st) ++ map (fun i => (ahead st + i, fed sdo st i)) (seq 0 m).
Proof.
  intros (T & _ & _). rewrite T, samples_app, steps_samples. f_equal.
  apply (map_seq_offset (fun k => (k, sdo k))).
Qed.

Lemma gpio_run_last_commanded (st st' : State) (m : nat) (b : option level) :
  gpio_run st st' m -> 0 < m -> last_commanded (trace st') b = Some HIGH.
Proof.
  intros (T & _ & _) Hm. rewrite T, last_commanded_app.
  now apply steps_last_commanded.
Qed.

End Operations.

Lemma bind_ret {A B : Type} (m : outcome A) (k : A -> outcome B) (b : B) :
  bind m k = Ret b -> exists a, m = Ret a /\ k a = Ret b.
Proof. destruct m as [a| |]; try discriminate. intros H. now exists a. Qed.

Lemma Ret_inj {A : Type} (a b : A) : Ret a = Ret b -> a = b.
Proof. now injection 1. Qed.

Lemma startADC_ret (sdo : nat -> bool) (fuel : nat) (st st2 : State) :
  startADC sdo fuel st = Ret st2 ->
  exists st1,
    waitForData sdo fuel (print MsgStarting st) = Ret st1
    /\ st2 = print MsgStarted (pulses 20 st1).
Proof.
  intros H. apply bind_ret in H as (st1 & W & K). exists st1.
  split; [exact W|]. symmetry. exact (Ret_inj _ _ K).
Qed.

Lemma print_clock (m : message) (st : State) : clock (print m st) = clock st.
Proof. reflexivity. Qed.

Lemma print_trace (m : message) (st : State) : trace (print m st) = trace st.
Proof. reflexivity. Qed.

Lemma print_ahead (m : message) (st : State) : ahead (print m st) = ahead st.
Proof. reflexivity. Qed.

(** C6.  When [waitForData], [readADC] or [startADC] returns, whatever the
    line carried and whatever the clock level was before, the level last
    commanded on the clock pin is HIGH: the state says so, and so does the
    list of GPIO calls, in which the last [GPIO.output] on the clock pin is a
    HIGH ([b] is the level commanded before the list began, if any). *)
Theorem idle_high (sdo : nat -> bool) (now : nat -> string) (cfg : Config)
  (fuel : nat) (st st' : State) :
  waitForData sdo fuel st = Ret st'
  \/ readADC sdo now cfg fuel st = Ret st'
  \/ startADC sdo fuel st = Ret st' ->
  clock st' = HIGH /\ forall b, last_commanded (trace st') b = Some HIGH.
Proof.
  intros [H | [H | H]].
  - apply waitForData_ret in H as (n & _ & -> & _).
    pose proof (gpio_run_sampled sdo st (n + 4)) as G. split.
    + apply (gpio_run_clock _ _ _ _ G). lia.
    + intros b. apply (gpio_run_last_commanded _ _ _ _ b G). lia.
  - apply readADC_gpio in H as (n & G). split.
    + apply (gpio_run_clock _ _ _ _ G). lia.
    + intros b. apply (gpio_run_last_commanded _ _ _ _ b G). lia.
  - apply startADC_ret in H as (st1 & _ & ->). split.
    + rewrite print_clock. apply pulses_clock. lia.
    + intros b. rewrite print_trace, pulses_trace, last_commanded_app.
      apply burst_last_commanded. lia.
Qed.

Lemma idle_high_witness :
  waitForData (line spec_sequence) 3 boot
  = Ret (sampled (line spec_sequence) 9 boot)
  /\ clock (sampled (line spec_sequence) 9 boot) = HIGH
  /\ forall b,
       last_commanded (trace (sampled (line spec_sequence) 9 boot)) b
       = Some HIGH.
Proof.
  split; [vm_compute; reflexivity|].
  apply (idle_high (line spec_sequence) stamp pi_ADC_config 3 boot).
  left. vm_compute; reflexivity.
Defined.

(** C7.  [startADC] runs the marker search once, from the state it was
    called in, and then pulses the clock twenty times: the calls it adds
    after the search are twenty LOW/HIGH pairs and no sample, so the only
    bits it samples are those of the search, and twenty is at least twice
    the marker length.  The converter is left twenty bits further on, and
    every sample taken by the [readADC] calls that follow is of a bit at or
    after that position (each position once, in order): none of the bits
    consumed by the start-up, sampled or flushed, is read again. *)
Theorem startADC_flush (sdo : nat -> bool) (fuel : nat) (st st2 : State) :
  startADC sdo fuel st = Ret st2 ->
  exists st1,
    waitForData sdo fuel (print MsgStarting st) = Ret st1
    /\ st2 = print MsgStarted (pulses 20 st1)
    /\ trace st2 = trace st1 ++ burst 20
    /\ samples (trace st2) = samples (trace st1)
    /\ lows (trace st2) = lows (trace st1) + 20
    /\ 2 * 4 <= 20
    /\ ahead st2 = ahead st1 + 20
    /\ (forall k b, In (k, b) (samples (trace st2)) ->
          In (k, b) (samples (trace st)) \/ ahead st <= k < ahead st1)
    /\ forall now cfg cycles fuel' st3,
         acquisition sdo now cfg cycles fuel' st2 = Ret st3 ->
         exists m,
           samples (trace st3)
           = samples (trace st2)
             ++ map (fun i => (ahead st2 + i, fed sdo st2 i)) (seq 0 m)
           /\ forall k b, In (k, b) (samples (trace st3)) ->
                In (k, b) (samples (trace st2)) \/ ahead st2 <= k.
Proof.
  intros H. apply startADC_ret in H as (st1 & W & E2). exists st1.
  assert (T : trace st2 = trace st1 ++ burst 20)
    by (rewrite E2, print_trace; apply pulses_trace).
  assert (A : ahead st2 = ahead st1 + 20)
    by (rewrite E2, print_ahead; apply pulses_ahead).
  assert (S : samples (trace st2) = samples (trace st1))
    by (rewrite T, samples_app, burst_samples; apply app_nil_r).
  split; [exact W|]. split; [exact E2|]. split; [exact T|].
  split; [exact S|]. split; [now rewrite T, lows_app, burst_lows|].
  split; [lia|]. split; [exact A|]. split.
  - intros k b Hin. rewrite S in Hin.
    apply waitForData_ret in W as (n & _ & -> & _).
    rewrite sampled_samples, sampled_ahead in *.
    apply in_app_or in Hin as [Hin | Hin]; [left; exact Hin|right].
    apply in_map_iff in Hin as (i & E & Hi). apply in_seq in Hi.
    injection E as <- _. rewrite print_ahead. lia.
  - intros now cfg cycles fuel' st3 Hacq.
    apply acquisition_gpio in Hacq as (m & G). exists m.
    pose proof (gpio_run_samples _ _ _ _ G) as E. split; [exact E|].
    intros k b Hin. rewrite E in Hin.
    apply in_app_or in Hin as [Hin | Hin]; [left; exact Hin|right].
    apply in_map_iff in Hin as (i & Ei & _). injection Ei as <- _. lia.
Qed.

(** A line for a whole session: the marker of the conversion discarded by
    the start-up, twenty bits for the flush, then the marker and the twelve
    data bits [1000 0000 0000] of a reading of 2048, that is 1650 mV. *)
Definition session_line : nat -> bool :=
  line (repeat false 4 ++ repeat true 20
        ++ repeat false 4 ++ true :: repeat false 11).

(** The state [startADC] leaves the session in. *)
Definition started : State :=
  print MsgStarted (pulses 20 (sampled session_line 4 (print MsgStarting boot))).

Lemma startADC_flush_witness :
  startADC session_line 1 boot = Ret started
  /\ exists st1,
       waitForData session_line 1 (print MsgStarting boot) = Ret st1
       /\ started = print MsgStarted (pulses 20 st1)
       /\ trace started = trace st1 ++ burst 20
       /\ samples (trace started) = samples (trace st1)
       /\ lows (trace started) = lows (trace st1) + 20
       /\ 2 * 4 <= 20
       /\ ahead started = ahead st1 + 20
       /\ (forall k b, In (k, b) (samples (trace started)) ->
             In (k, b) (samples (trace boot)) \/ ahead boot <= k < ahead st1)
       /\ forall now cfg cycles fuel' st3,
            acquisition session_line now cfg cycles fuel' started = Ret st3 ->
            exists m,
              samples (trace st3)
              = samples (trace started)
                ++ map (fun i => (ahead started + i, fed session_line started i))
                     (seq 0 m)
              /\ forall k b, In (k, b) (samples (trace st3)) ->
                   In (k, b) (samples (trace started)) \/ ahead started <= k.
Proof.
  split; [vm_compute; reflexivity|].
  apply (startADC_flush session_line 1 boot started).
  vm_compute; reflexivity.
Defined.

(** On the session line the start-up samples bits 0 to 3 and flushes bits 4
    to 23; the first reading samples bits 24 to 39. *)
Example session_samples :
  map fst (samples (trace started)) = seq 0 4
  /\ ahead started = 24
  /\ exists st3,
       readADC session_line stamp pi_ADC_config 1 started = Ret st3
       /\ map fst (samples (trace st3)) = seq 0 4 ++ seq 24 16.
Proof.
  split; [vm_compute; reflexivity|]. split; [vm_compute; reflexivity|].
  eexists. split; vm_compute; reflexivity.
Qed.

(** ** The sample reader *)

Lemma msb_first_S (W : nat) (bit : nat -> Z) :
  msb_first (S W) bit
  = (bit 0%nat * 2 ^ Z.of_nat W + msb_first W (fun i => bit (S i)))%Z.
Proof.
  unfold msb_first. cbn [seq map fold_right]. f_equal.
  - f_equal. f_equal. lia.
  - f_equal. rewrite <- seq_shift, map_map. apply map_ext. intros i.
    f_equal. f_equal. lia.
Qed.

Lemma msb_first_ext (W : nat) (f g : nat -> Z) :
  (forall i, i < W -> f i = g i) -> msb_first W f = msb_first W g.
Proof.
  intros H. unfold msb_first. f_equal. apply map_ext_in. intros i Hi.
  apply in_seq in Hi. rewrite H by lia. reflexivity.
Qed.

(** The bits of [raw] from position [W - 1] down to 0, weighted, give back
    [raw] modulo [2^W]. *)
Lemma msb_first_testbit (raw : Z) (W : nat) :
  msb_first W (fun i => Z.b2z (Z.testbit raw (Z.of_nat W - Z.of_nat i - 1)))
  = (raw mod 2 ^ Z.of_nat W)%Z.
Proof.
  induction W as [|W IH].
  - cbn. now rewrite Z.mod_1_r.
  - rewrite msb_first_S.
    rewrite (msb_first_ext W _
               (fun i => Z.b2z (Z.testbit raw (Z.of_nat W - Z.of_nat i - 1)))).
    + rewrite IH.
      replace (Z.of_nat (S W) - Z.of_nat 0 - 1)%Z with (Z.of_nat W) by lia.
      rewrite Z.testbit_spec' by lia.
      rewrite Nat2Z.inj_succ, Z.pow_succ_r by lia.
      rewrite (Z.mul_comm 2), Z.rem_mul_r by lia. ring.
    + intros i _. do 2 f_equal. lia.
Qed.

Lemma msb_first_bound (W : nat) (bit : nat -> bool) :
  (0 <= msb_first W (fun i => Z.b2z (bit i)) < 2 ^ Z.of_nat W)%Z.
Proof.
  revert bit; induction W as [|W IH]; intros bit.
  - cbn. lia.
  - rewrite msb_first_S, Nat2Z.inj_succ, Z.pow_succ_r by lia.
    specialize (IH (fun i => bit (S i))). cbv beta in IH.
    destruct (bit 0); cbn [Z.b2z]; lia.
Qed.

Lemma encode_nth (W : nat) (raw : Z) (i : nat) :
  i < W ->
  nth i (encode W raw) false = Z.testbit raw (Z.of_nat W - Z.of_nat i - 1).
Proof.
  intros Hi. unfold encode.
  rewrite (nth_indep _ false (Z.testbit raw (Z.of_nat W - Z.of_nat 0 - 1)))
    by (rewrite length_map, length_seq; lia).
  rewrite (map_nth (fun i => Z.testbit raw (Z.of_nat W - Z.of_nat i - 1))).
  now rewrite seq_nth by lia.
Qed.

Lemma encode_decode (W : nat) (raw : Z) :
  (0 <= raw < 2 ^ Z.of_nat W)%Z ->
  msb_first W (fun i => Z.b2z (nth i (encode W raw) false)) = raw.
Proof.
  intros Hraw.
  rewrite (msb_first_ext W _
             (fun i => Z.b2z (Z.testbit raw (Z.of_nat W - Z.of_nat i - 1)))).
  - rewrite msb_first_testbit. now apply Z.mod_small.
  - intros i Hi. now rewrite encode_nth.
Qed.

(** The configuration of the reduced test of the specification: four bits. *)
Definition test_config : Config :=
  {| vref := 3300; resolution := 4; offset := 0; threshold := 200 |}.

(** The bit stream of the end-to-end scenario of the specification. *)
Definition scenario : list bool :=
  [true; false; false; false; false; true; false; true; true].

(** The summing loop on binary64 numbers yields exactly the integer the
    samples [l] stand for, first bit most significant. *)
Definition sum_exact (W : nat) (l : list Z) : bool :=
  match Binary64.sum_loop W W 0 l 0%float with
  | Some f =>
      match Binary64.exact f with
      | Some q => Qeq_bool q (inject_Z (msb_first W (fun i => nth i l 0%Z)))
      | None => false
      end
  | None => false
  end.

(** Up to sixteen bits, checked on every list of samples: lines 86-88 round
    nowhere. *)
Lemma binary64_sum_exact (W : nat) (l : list Z) :
  W <= 16 -> List.length l = W -> Forall (fun d => d = 0%Z \/ d = 1%Z) l ->
  sum_exact W l = true.
Proof.
  intros HW Hlen Hbits. apply all_bits_complete in Hbits. rewrite Hlen in Hbits.
  assert (H : forallb (fun W => forallb (sum_exact W) (all_bits W)) (seq 0 17)
              = true) by (vm_compute; reflexivity).
  rewrite forallb_forall in H. specialize (H W).
  rewrite forallb_forall in H. apply H; [|exact Hbits].
  apply in_seq. lia.
Qed.

Lemma data_bits_bits (sdo : nat -> bool) (cfg : Config) (st : State) :
  Forall (fun d => d = 0%Z \/ d = 1%Z) (data_bits sdo cfg st).
Proof.
  unfold data_bits. apply Forall_forall. intros d Hd.
  apply in_map_iff in Hd as (i & <- & _). destruct (fed sdo st i); auto.
Qed.

Lemma data_bits_value (sdo : nat -> bool) (cfg : Config) (st : State) :
  msb_first (resolution cfg) (fun i => nth i (data_bits sdo cfg st) 0%Z)
  = msb_first (resolution cfg) (fun i => Z.b2z (fed sdo st i)).
Proof.
  apply msb_first_ext. intros i Hi. unfold data_bits.
  rewrite (nth_indep _ 0%Z (Z.b2z (fed sdo st 0)))
    by (rewrite length_map, length_seq; lia).
  rewrite (map_nth (fun i => Z.b2z (fed sdo st i))).
  now rewrite seq_nth by lia.
Qed.

(** C3.  Started in any state on any line, the reading loop of [readADC]
    runs [resolution] pulse-and-sample steps, whatever the bits are: it
    drives the clock low [resolution] times and takes one sample after each
    pulse, of consecutive bits, and stores them in reading order.  The
    summing loop then yields the sum of [bit i * 2^(W-1-i)], first bit most
    significant, so that when the line carries the [W] bits of an integer
    [raw] of [0 .. 2^W - 1], most significant first, the value obtained is
    [raw]: this holds of the binary64 sum of lines 86-88 for every
    resolution up to 16 bits (the script has 12), where it is checked on
    all readings, and of the sum on rationals for every resolution up to
    53 bits, the precision of binary64. *)
Theorem read_loop_msb_first (sdo : nat -> bool) (cfg : Config) (st : State) :
  let W := resolution cfg in
  read_loop sdo W 0 (range W) st = Ret (data_bits sdo cfg st, sampled sdo W st)
  /\ data_bits sdo cfg st = map (fun i => Z.b2z (fed sdo st i)) (seq 0 W)
  /\ lows (trace (sampled sdo W st)) = lows (trace st) + W
  /\ samples (trace (sampled sdo W st))
     = samples (trace st) ++ map (fun i => (ahead st + i, fed sdo st i)) (seq 0 W)
  /\ (W <= 16 ->
      exists (f : float) (q : Q),
        Binary64.sum_loop W W 0 (data_bits sdo cfg st) 0%float = Some f
        /\ Binary64.exact f = Some q
        /\ (q == inject_Z (msb_first W (fun i => Z.b2z (fed sdo st i))))%Q
        /\ forall raw : Z,
             (0 <= raw < 2 ^ Z.of_nat W)%Z ->
             (forall i, i < W -> fed sdo st i = nth i (encode W raw) false) ->
             (q == inject_Z raw)%Q)
  /\ (W <= 53 ->
      sum_loop cfg W 0 (data_bits sdo cfg st) 0 = Some (raw_value sdo cfg st)
      /\ (raw_value sdo cfg st
          == inject_Z (msb_first W (fun i => Z.b2z (fed sdo st i))))%Q
      /\ forall raw : Z,
           (0 <= raw < 2 ^ Z.of_nat W)%Z ->
           (forall i, i < W -> fed sdo st i = nth i (encode W raw) false) ->
           msb_first W (fun i => Z.b2z (nth i (encode W raw) false)) = raw
           /\ (raw_value sdo cfg st == inject_Z raw)%Q).
Proof.
  intros W.
  assert (RT : forall raw : Z,
             (0 <= raw < 2 ^ Z.of_nat W)%Z ->
             (forall i, i < W -> fed sdo st i = nth i (encode W raw) false) ->
             msb_first W (fun i => Z.b2z (fed sdo st i)) = raw).
  { intros raw Hraw Hfed.
    transitivity (msb_first W (fun i => Z.b2z (nth i (encode W raw) false)));
      [|now apply encode_decode].
    apply msb_first_ext. intros i Hi. now rewrite Hfed. }
  split; [apply read_loop_eq|]. split; [reflexivity|].
  split; [apply sampled_lows|]. split; [apply sampled_samples|]. split.
  - intros HW.
    pose proof (binary64_sum_exact W (data_bits sdo cfg st) HW
                  (data_bits_length sdo cfg st) (data_bits_bits sdo cfg st))
      as E.
    unfold sum_exact in E.
    destruct (Binary64.sum_loop W W 0 (data_bits sdo cfg st) 0%float)
      as [f|]; [|discriminate].
    destruct (Binary64.exact f) as [q|] eqn:X; [|discriminate].
    apply Qeq_bool_iff in E. unfold W in E. rewrite data_bits_value in E.
    exists f, q. split; [reflexivity|]. split; [exact X|]. split; [exact E|].
    intros raw Hraw Hfed. rewrite E. fold W. now rewrite (RT raw Hraw Hfed).
  - intros _. split; [apply sum_loop_eq|]. split; [apply raw_value_eq|].
    intros raw Hraw Hfed. split; [now apply encode_decode|].
    rewrite raw_value_eq. fold W. now rewrite (RT raw Hraw Hfed).
Qed.

Lemma read_loop_msb_first_witness :
  (exists (f : float) (q : Q),
      Binary64.sum_loop 4 4 0
        (data_bits (line scenario) test_config (sampled (line scenario) 5 boot))
        0%float = Some f
      /\ Binary64.exact f = Some q
      /\ (q == inject_Z 11)%Q)
  /\ msb_first 4 (fun i => Z.b2z (nth i (encode 4 11) false)) = 11%Z
  /\ (raw_value (line scenario) test_config (sampled (line scenario) 5 boot)
      == inject_Z 11)%Q.
Proof.
  destruct (read_loop_msb_first (line scenario) test_config
              (sampled (line scenario) 5 boot)) as (_ & _ & _ & _ & B & R).
  assert (Hraw : (0 <= 11 < 2 ^ Z.of_nat (resolution test_config))%Z)
    by (cbn; lia).
  assert (Hfed : forall i,
             i < resolution test_config ->
             fed (line scenario) (sampled (line scenario) 5 boot) i
             = nth i (encode (resolution test_config) 11) false).
  { intros i Hi. do 4 (destruct i as [|i]; [reflexivity|]). cbn in Hi. lia. }
  split.
  - destruct B as (f & q & S & X & _ & RT); [cbn; lia|].
    exists f, q. split; [exact S|]. split; [exact X|]. exact (RT 11%Z Hraw Hfed).
  - destruct R as (_ & _ & RT); [cbn; lia|]. exact (RT 11%Z Hraw Hfed).
Defined.

(** Binary64 carries 53 significant bits: with 54 bits set the sum of lines
    86-88 is [2^54], not [2^54 - 1]. *)
Example binary64_sum_rounds :
  option_map Binary64.exact
    (Binary64.sum_loop 54 54 0 (map Z.b2z (encode 54 (2 ^ 54 - 1))) 0%float)
  = Some (Some (inject_Z (2 ^ 54))).
Proof. vm_compute. reflexivity. Qed.

(** The eleven of the scenario, and the extreme readings of the script's
    twelve bits. *)
Example read_loop_values :
  read_loop (line scenario) 4 0 (range 4) (sampled (line scenario) 5 boot)
  = Ret ([1; 0; 1; 1]%Z, sampled (line scenario) 9 boot)
  /\ encode 12 4095 = repeat true 12
  /\ encode 12 0 = repeat false 12
  /\ encode 12 2048 = true :: repeat false 11.
Proof. split; [|split; [|split]]; vm_compute; reflexivity. Qed.

(** ** The threshold filter *)

Lemma readADC_frame_ret (sdo : nat -> bool) (now : nat -> string)
  (cfg : Config) (fuel : nat) (st st' : State) (fr : Frame) :
  readADC_frame sdo now cfg fuel st = Ret (fr, st') ->
  exists n,
    waitForData sdo fuel st = Ret (sampled sdo (n + 4) st)
    /\ fr = frame_after sdo now cfg (sampled sdo (n + 4) st)
    /\ st' = finish sdo now cfg (sampled sdo (n + 4) st).
Proof.
  rewrite readADC_frame_eq. intros H.
  apply bind_ret in H as (st1 & W & K).
  apply after_marker_ret in K as (_ & -> & ->).
  pose proof W as W'. apply waitForData_ret in W' as (n & _ & -> & _).
  now exists n.
Qed.

Lemma finish_file (sdo : nat -> bool) (now : nat -> string) (cfg : Config)
  (st1 : State) :
  ADC_file (finish sdo now cfg st1)
  = if recorded sdo cfg st1
    then ADC_file st1
         ++ [FWrite (now (now_calls st1)) (toVoltage cfg (raw_value sdo cfg st1))]
    else ADC_file st1.
Proof.
  unfold finish.
  destruct (sampled_quiet sdo (resolution cfg) st1) as (F & _ & _).
  destruct (recorded sdo cfg st1); cbn; now rewrite F.
Qed.

(** C5.  When a cycle of [readADC] returns, the voltage has been computed
    from the raw sum in either case; a record holding the timestamp and this
    voltage is appended to the file when the voltage is strictly above the
    threshold; nothing is written when it is at or below the threshold, the
    threshold itself included.  So a record is appended if and only if the
    voltage is strictly greater than the threshold. *)
Theorem threshold_filter (sdo : nat -> bool) (now : nat -> string)
  (cfg : Config) (fuel : nat) (st st' : State) (fr : Frame) :
  readADC_frame sdo now cfg fuel st = Ret (fr, st') ->
  validData fr = toVoltage cfg (rawData fr)
  /\ ((threshold cfg < validData fr)%Q ->
      ADC_file st' = ADC_file st ++ [FWrite (dt_string fr) (validData fr)])
  /\ ((validData fr <= threshold cfg)%Q -> ADC_file st' = ADC_file st)
  /\ ((exists r, ADC_file st' = ADC_file st ++ [r])
      <-> (threshold cfg < validData fr)%Q).
Proof.
  intros H. apply readADC_frame_ret in H as (n & _ & -> & ->).
  set (st1 := sampled sdo (n + 4) st).
  assert (F1 : ADC_file st1 = ADC_file st)
    by (destruct (sampled_quiet sdo (n + 4) st) as (F & _ & _); exact F).
  cbn [frame_after validData rawData dt_string].
  rewrite finish_file, F1. unfold recorded.
  set (v := toVoltage cfg (raw_value sdo cfg st1)).
  destruct (Qle_bool v (threshold cfg)) eqn:E; cbn [negb].
  - apply Qle_bool_iff in E.
    split; [reflexivity|]. split; [|split; [reflexivity|split]].
    + intros Hlt. exfalso. exact (Qlt_not_le _ _ Hlt E).
    + intros (r & Hr). exfalso.
      apply (f_equal (@List.length file_op)) in Hr.
      rewrite length_app in Hr. cbn in Hr. lia.
    + intros Hlt. exfalso. exact (Qlt_not_le _ _ Hlt E).
  - assert (Hlt : (threshold cfg < v)%Q).
    { apply Qnot_le_lt. intros Hle. apply Qle_bool_iff in Hle. congruence. }
    split; [reflexivity|]. split; [reflexivity|split; [|split]].
    + intros Hle. exfalso. exact (Qlt_not_le _ _ Hlt Hle).
    + intros _. exact Hlt.
    + intros _. eexists. reflexivity.
Qed.

(** The locals and the final state of [readADC] on the scenario of the
    specification, started at power-up. *)
Definition scenario_frame : Frame :=
  frame_after (line scenario) stamp test_config (sampled (line scenario) 5 boot).

Definition scenario_final : State :=
  finish (line scenario) stamp test_config (sampled (line scenario) 5 boot).

Lemma threshold_filter_witness :
  readADC_frame (line scenario) stamp test_config 2 boot
  = Ret (scenario_frame, scenario_final)
  /\ validData scenario_frame = toVoltage test_config (rawData scenario_frame)
  /\ ((threshold test_config < validData scenario_frame)%Q ->
      ADC_file scenario_final
      = ADC_file boot
        ++ [FWrite (dt_string scenario_frame) (validData scenario_frame)])
  /\ ((validData scenario_frame <= threshold test_config)%Q ->
      ADC_file scenario_final = ADC_file boot)
  /\ ((exists r, ADC_file scenario_final = ADC_file boot ++ [r])
      <-> (threshold test_config < validData scenario_frame)%Q).
Proof.
  split; [vm_compute; reflexivity|].
  apply (threshold_filter (line scenario) stamp test_config 2 boot).
  vm_compute; reflexivity.
Defined.

(** The scenario's reading of 2268.75 mV against three thresholds: just
    below it, equal to it, and the default 200 mV. *)
Example threshold_boundary :
  let run thr :=
    readADC (line scenario) stamp
      {| vref := 3300; resolution := 4; offset := 0; threshold := thr |}
      2 boot in
  (exists st', run (9075 # 4) = Ret st' /\ ADC_file st' = [])
  /\ (exists st' v, run (9074 # 4) = Ret st'
        /\ ADC_file st' = [FWrite (stamp 0) v] /\ (v == 9075 # 4)%Q)
  /\ (exists st' v, run 200%Q = Ret st'
        /\ ADC_file st' = [FWrite (stamp 0) v] /\ (v == 9075 # 4)%Q).
Proof.
  cbv zeta. split; [|split].
  - eexists. split; vm_compute; reflexivity.
  - do 2 eexists. split; [vm_compute; reflexivity|].
    split; vm_compute; reflexivity.
  - do 2 eexists. split; [vm_compute; reflexivity|].
    split; vm_compute; reflexivity.
Qed.

(** ** One acquisition cycle on the scenario of the specification *)

Lemma fed_sampled (sdo : nat -> bool) (n i : nat) (st : State) :
  fed sdo (sampled sdo n st) i = fed sdo st (n + i).
Proof. unfold fed. rewrite sampled_ahead. f_equal. lia. Qed.

(** C2.  With four data bits, Vref = 3300, offset = 0 and threshold = 200,
    on any line whose next nine bits are [1,0,0,0,0,1,0,1,1]: [waitForData]
    returns after five bits, the last four of which (the second to the fifth
    of the stream) are the four zeros; [readADC] then reads the next four
    bits [1,0,1,1], sums them to 11, converts 11 to (11/16)*3300 = 2268.75 mV
    and, this being above 200, appends the record to the file.  The binary64
    computation gives the same 2268.75 and the same verdict. *)
Theorem end_to_end_scenario (sdo : nat -> bool) (now : nat -> string)
  (st : State) :
  (forall i, i < 9 -> fed sdo st i = nth i scenario true) ->
  waitForData sdo 2 st = Ret (sampled sdo 5 st)
  /\ (forall i, 1 <= i < 5 -> fed sdo st i = false)
  /\ (exists fr st',
        readADC_frame sdo now test_config 2 st = Ret (fr, st')
        /\ validDataList fr = [1; 0; 1; 1]%Z
        /\ (rawData fr == 11)%Q
        /\ (validData fr == (11 / 16) * 3300)%Q
        /\ (validData fr == 2268.75)%Q
        /\ ADC_file st'
           = ADC_file st ++ [FWrite (now (now_calls st)) (validData fr)]
        /\ samples (trace st')
           = samples (trace st)
             ++ map (fun i => (ahead st + i, nth i scenario true)) (seq 0 9))
  /\ Binary64.voltage 4 3300 0 [1; 0; 1; 1]%Z = Some 2268.75%float
  /\ Binary64.above 200 2268.75%float = true.
Proof.
  intros Hfed.
  assert (W : waitForData sdo 2 st = Ret (sampled sdo 5 st)).
  { rewrite waitForData_S.
    assert (F0 : frame_at sdo (ahead st) = false).
    { unfold frame_at. pose proof (Hfed 0 ltac:(lia)) as H0.
      unfold fed in H0. rewrite Nat.add_0_r in H0. now rewrite H0. }
    assert (S0 : stride sdo (ahead st) = 1).
    { unfold stride. pose proof (Hfed 0 ltac:(lia)) as H0.
      unfold fed in H0. rewrite Nat.add_0_r in H0. now rewrite H0. }
    rewrite F0, S0, waitForData_S, sampled_ahead.
    assert (F1 : frame_at sdo (ahead st + 1) = true).
    { apply frame_at_zero. intros i Hi.
      replace (ahead st + 1 + i) with (ahead st + (1 + i)) by lia.
      change (fed sdo st (1 + i) = false). rewrite Hfed by lia.
      do 4 (destruct i as [|i]; [reflexivity|]). lia. }
    rewrite F1. now rewrite <- (sampled_add sdo 1 4). }
  set (st1 := sampled sdo 5 st) in *.
  assert (B : data_bits sdo test_config st1 = [1; 0; 1; 1]%Z).
  { unfold data_bits, st1. cbn [resolution test_config seq map].
    rewrite !fed_sampled, !Hfed by lia. reflexivity. }
  assert (R : (raw_value sdo test_config st1 == 11)%Q).
  { rewrite raw_value_eq. unfold msb_first, st1.
    cbn [resolution test_config seq map].
    rewrite !fed_sampled, !Hfed by lia. reflexivity. }
  assert (V : (toVoltage test_config (raw_value sdo test_config st1)
               == 9075 # 4)%Q).
  { unfold toVoltage. rewrite R. reflexivity. }
  split; [exact W|]. split; [|split].
  - intros i Hi. rewrite Hfed by lia.
    destruct i as [|i]; [lia|].
    do 4 (destruct i as [|i]; [reflexivity|]). lia.
  - exists (frame_after sdo now test_config st1),
           (finish sdo now test_config st1).
    split; [rewrite readADC_frame_eq, W; reflexivity|].
    cbn [frame_after validDataList rawData validData].
    split; [exact B|]. split; [exact R|].
    split; [rewrite V; reflexivity|]. split; [rewrite V; reflexivity|].
    destruct (sampled_quiet sdo 5 st) as (Ff & _ & Fn). fold st1 in Ff, Fn.
    split.
    + rewrite finish_file, Ff, Fn.
      replace (recorded sdo test_config st1) with true; [reflexivity|].
      symmetry. unfold recorded. apply negb_true_iff.
      destruct (Qle_bool _ _) eqn:E; [|reflexivity].
      apply Qle_bool_iff in E. rewrite V in E.
      exfalso. revert E. unfold Qle. cbn. lia.
    + destruct (finish_gpio sdo now test_config st1) as (_ & _ & ->).
      cbn [resolution test_config]. unfold st1.
      rewrite <- sampled_add, sampled_samples. f_equal.
      apply map_ext_in. intros i Hi. apply in_seq in Hi.
      now rewrite Hfed by lia.
  - split; vm_compute; reflexivity.
Qed.

Lemma end_to_end_scenario_witness :
  waitForData (line scenario) 2 boot = Ret (sampled (line scenario) 5 boot)
  /\ (forall i, 1 <= i < 5 -> fed (line scenario) boot i = false)
  /\ (exists fr st',
        readADC_frame (line scenario) stamp test_config 2 boot = Ret (fr, st')
        /\ validDataList fr = [1; 0; 1; 1]%Z
        /\ (rawData fr == 11)%Q
        /\ (validData fr == (11 / 16) * 3300)%Q
        /\ (validData fr == 2268.75)%Q
        /\ ADC_file st'
           = ADC_file boot ++ [FWrite (stamp (now_calls boot)) (validData fr)]
        /\ samples (trace st')
           = samples (trace boot)
             ++ map (fun i => (ahead boot + i, nth i scenario true)) (seq 0 9))
  /\ Binary64.voltage 4 3300 0 [1; 0; 1; 1]%Z = Some 2268.75%float
  /\ Binary64.above 200 2268.75%float = true.
Proof.
  apply (end_to_end_scenario (line scenario) stamp boot).
  intros i Hi. reflexivity.
Defined.

(** A reading of [1000 0000 0000], as the list the reading loop fills. *)
Definition half_scale : list Z := 1%Z :: repeat 0%Z 11.

Lemma half_scale_bits : Forall (fun d => d = 0%Z \/ d = 1%Z) half_scale.
Proof.
  apply Forall_cons; [right; reflexivity|].
  repeat (apply Forall_cons; [left; reflexivity|]). apply Forall_nil.
Qed.

(** ** The unit conversion *)









(** The script's own constants, in binary64: a zero reading gives 0.0, the
    full-scale reading 4095 gives 3299.1943359375, which is the rational
    [3300 * 4095 / 4096] and not 3300.0. *)
Example binary64_boundaries :
  Binary64.voltage 12 3300 0 (repeat 0%Z 12) = Some 0%float
  /\ Binary64.voltage 12 3300 0 (repeat 1%Z 12) = Some 3299.1943359375%float
  /\ option_map Qred (Binary64.exact 3299.1943359375%float)
     = Some (Qred (toVoltage pi_ADC_config (inject_Z 4095)))
  /\ (3299.1943359375 =? 3300)%float = false.
Proof. split; [|split; [|split]]; vm_compute; reflexivity. Qed.

(** Binary64 carries 53 significant bits: were [resolution] 54, the sum of
    54 set bits would round to [2^54] and the voltage would come out as
    Vref.  The rational computation stands for the binary64 one only while
    no rounding occurs, as is the case for the constants of the script
    ([binary64_exact]). *)
Example binary64_rounding :
  Binary64.voltage 54 3300 0 (repeat 1%Z 54) = Some 3300%float
  /\ Binary64.voltage 53 3300 0 (repeat 1%Z 53)
     = Some 0x1.9c7ffffffffffp+11%float.
Proof. split; vm_compute; reflexivity. Qed.

(** ** The end of [main] *)

(** C8, as the code has it.  In every state, whether or not a reading was
    computed before, the [except] clause of [main] raises [NameError] on
    [dt_string]: [dt_string] and [validData] are local variables of
    [readADC], gone when it returns, and the clause looks them up among the
    names of the module, where they are not.  No final record is written,
    the file is not closed and "Done" is not printed.  So it is on the
    session above, ended by an exception after one reading of 1650 mV has
    been recorded by [readADC]: the file holds that one record and has not
    been closed. *)
Theorem except_clause_name_error :
  (forall (cfg : Config) (st : State),
      except_clause cfg st = Raise (NameError "dt_string") st)
  /\ (forall cfg : Config,
        lookup "dt_string" (module_globals cfg) = None
        /\ lookup "validData" (module_globals cfg) = None)
  /\ exists (st2 : State) (v : Q),
       main session_line stamp pi_ADC_config 1 1 boot
       = Raise (NameError "dt_string") st2
       /\ ADC_file st2 = [FWrite (stamp 0) v]
       /\ (v == 1650)%Q
       /\ stdout st2 = [MsgStarting; MsgStarted; MsgMilliVolts v].
Proof.
  split; [|split].
  - intros cfg st. reflexivity.
  - intros cfg. split; reflexivity.
  - do 2 eexists. split; [vm_compute; reflexivity|].
    split; [reflexivity|]. split; reflexivity.
Qed.

(** * Further properties of the script *)

(** ** What the operations cannot do *)

Lemma waitForData_no_raise (sdo : nat -> bool) (fuel : nat) (st : State)
  (e : exn) (s : State) :
  waitForData sdo fuel st <> Raise e s.
Proof.
  rewrite waitForData_search.
  destruct (search sdo fuel (ahead st)); discriminate.
Qed.






(** ** Synchronizing on a line that idles high *)

Lemma waitForData_skip_one (sdo : nat -> bool) (fuel : nat) (st : State) :
  fed sdo st 0 = true ->
  waitForData sdo (S fuel) st = waitForData sdo fuel (sampled sdo 1 st).
Proof.
  unfold fed. rewrite Nat.add_0_r. intros H.
  rewrite waitForData_S. unfold frame_at, stride. now rewrite H.
Qed.

Lemma waitForData_hit (sdo : nat -> bool) (fuel : nat) (st : State) :
  (forall i, i < 4 -> fed sdo st i = false) ->
  waitForData sdo (S fuel) st = Ret (sampled sdo 4 st).
Proof.
  intros Hz. rewrite waitForData_S.
  replace (frame_at sdo (ahead st)) with true; [reflexivity|].
  symmetry. now apply frame_at_zero.
Qed.

(** A line that idles high for three bits and then shows the four zeros and
    twelve data bits [1010 0000 0000] of a conversion. *)
Definition idle_then_frame : nat -> bool :=
  line (repeat true 3 ++ repeat false 4
        ++ [true; false; true] ++ repeat false 9).

(** X2.  On a line that is high for its next [k] bits and then shows four
    zeros -- the pulled-up line before a conversion -- [waitForData]
    returns after exactly these [k + 4] bits, in [k + 1] iterations of its
    loop ([k] iterations are not enough), so that the next bit the
    converter shifts out is the one following the four zeros. *)
Theorem waitForData_after_idle (sdo : nat -> bool) (k : nat) (st : State) :
  (forall i, i < k -> fed sdo st i = true) ->
  (forall i, k <= i < k + 4 -> fed sdo st i = false) ->
  (forall fuel, k < fuel -> waitForData sdo fuel st = Ret (sampled sdo (k + 4) st))
  /\ waitForData sdo k st = OutOfFuel
  /\ ahead (sampled sdo (k + 4) st) = ahead st + k + 4
  /\ lows (trace (sampled sdo (k + 4) st)) = lows (trace st) + k + 4.
Proof.
  intros Hones Hzeros. split; [|split; [|split]].
  - revert st Hones Hzeros. induction k as [|k IH]; intros st Hones Hzeros fuel Hf.
    + destruct fuel as [|fuel]; [lia|]. apply waitForData_hit.
      intros i Hi. apply Hzeros. lia.
    + destruct fuel as [|fuel]; [lia|].
      rewrite waitForData_skip_one by (apply Hones; lia).
      rewrite (IH (sampled sdo 1 st)); [now rewrite <- sampled_add| | |lia].
      * intros i Hi. rewrite fed_sampled. apply Hones. lia.
      * intros i Hi. rewrite fed_sampled. apply Hzeros. lia.
  - clear Hzeros. revert st Hones. induction k as [|k IH]; intros st Hones.
    + reflexivity.
    + rewrite waitForData_skip_one by (apply Hones; lia).
      apply IH. intros i Hi. rewrite fed_sampled. apply Hones. lia.
  - rewrite sampled_ahead. lia.
  - rewrite sampled_lows. lia.
Qed.

Lemma waitForData_after_idle_witness :
  (forall fuel,
      3 < fuel ->
      waitForData idle_then_frame fuel boot = Ret (sampled idle_then_frame 7 boot))
  /\ waitForData idle_then_frame 3 boot = OutOfFuel
  /\ ahead (sampled idle_then_frame 7 boot) = ahead boot + 3 + 4
  /\ lows (trace (sampled idle_then_frame 7 boot)) = lows (trace boot) + 3 + 4.
Proof.
  apply (waitForData_after_idle idle_then_frame 3 boot).
  - intros i Hi. do 3 (destruct i as [|i]; [reflexivity|]). lia.
  - intros i Hi. do 3 (destruct i as [|i]; [lia|]).
    do 4 (destruct i as [|i]; [reflexivity|]). lia.
Defined.

(** ** What one reading is made of *)

Lemma finish_ahead (sdo : nat -> bool) (now : nat -> string) (cfg : Config)
  (st1 : State) :
  ahead (finish sdo now cfg st1) = ahead st1 + resolution cfg.
Proof.
  destruct (finish_gpio sdo now cfg st1) as (C & E & _).
  rewrite <- (sampled_ahead sdo). unfold ahead. now rewrite C, E.
Qed.

(** X3.  When [readADC] returns it has consumed [n + 4 + resolution] bits of
    the line, for some [n]: bits [n] to [n + 3] are the four zeros of the
    marker, and the list of data bits is made of the [resolution] bits that
    come right after them, in order.  Every pulse of the call is followed by
    one sample: the samples taken are those of all the bits consumed, each
    once, and the clock has been driven low as many times. *)
Theorem readADC_reads_after_marker (sdo : nat -> bool) (now : nat -> string)
  (cfg : Config) (fuel : nat) (st st' : State) (fr : Frame) :
  readADC_frame sdo now cfg fuel st = Ret (fr, st') ->
  exists n,
    (forall i, n <= i < n + 4 -> fed sdo st i = false)
    /\ validDataList fr
       = map (fun i => Z.b2z (fed sdo st (n + 4 + i))) (seq 0 (resolution cfg))
    /\ ahead st' = ahead st + (n + 4 + resolution cfg)
    /\ samples (trace st')
       = samples (trace st)
         ++ map (fun i => (ahead st + i, fed sdo st i))
              (seq 0 (n + 4 + resolution cfg))
    /\ lows (trace st') = lows (trace st) + (n + 4 + resolution cfg).
Proof.
  intros H. apply readADC_frame_ret in H as (n & W & -> & ->).
  exists n. apply waitForData_zeros in W as (n' & E & _ & Z4).
  assert (n' = n) as ->.
  { apply (f_equal ahead) in E. rewrite !sampled_ahead in E. lia. }
  split; [exact Z4|]. split; [|split; [|split]].
  - cbn [frame_after validDataList]. unfold data_bits.
    apply map_ext. intros i. now rewrite fed_sampled.
  - rewrite finish_ahead, sampled_ahead. lia.
  - destruct (finish_gpio sdo now cfg (sampled sdo (n + 4) st)) as (_ & _ & ->).
    rewrite <- sampled_add. apply sampled_samples.
  - destruct (finish_gpio sdo now cfg (sampled sdo (n + 4) st)) as (_ & _ & ->).
    rewrite <- sampled_add. apply sampled_lows.
Qed.

(** The locals and the final state of [readADC] on the idle line followed by
    a frame, with the constants of the script. *)
Definition idle_frame : Frame :=
  frame_after idle_then_frame stamp pi_ADC_config (sampled idle_then_frame 7 boot).

Definition idle_final : State :=
  finish idle_then_frame stamp pi_ADC_config (sampled idle_then_frame 7 boot).

Lemma readADC_reads_after_marker_witness :
  readADC_frame idle_then_frame stamp pi_ADC_config 4 boot
  = Ret (idle_frame, idle_final)
  /\ exists n,
       (forall i, n <= i < n + 4 -> fed idle_then_frame boot i = false)
       /\ validDataList idle_frame
          = map (fun i => Z.b2z (fed idle_then_frame boot (n + 4 + i)))
              (seq 0 (resolution pi_ADC_config))
       /\ ahead idle_final = ahead boot + (n + 4 + resolution pi_ADC_config)
       /\ samples (trace idle_final)
          = samples (trace boot)
            ++ map (fun i => (ahead boot + i, fed idle_then_frame boot i))
                 (seq 0 (n + 4 + resolution pi_ADC_config))
       /\ lows (trace idle_final)
          = lows (trace boot) + (n + 4 + resolution pi_ADC_config).
Proof.
  split; [vm_compute; reflexivity|].
  apply (readADC_reads_after_marker idle_then_frame stamp pi_ADC_config 4 boot).
  vm_compute; reflexivity.
Defined.

(** With the constants of the script, the binary64 voltage of the samples
    [l] is at least 0.0, at most 3299.1943359375 and below 3300.0, as
    binary64 comparisons have it. *)
Definition voltage_in_range (l : list Z) : bool :=
  match Binary64.voltage 12 3300 0 l with
  | Some f =>
      (Binary64.of_int 0 <=? f)%float
      && (f <=? 3299.1943359375)%float
      && (f <? Binary64.of_int 3300)%float
  | None => false
  end.

(** X4.  With the constants of the script (twelve bits, Vref = 3300,
    offset = 0), the voltage lines 86-91 compute in binary64 from any twelve
    samples is at least the offset 0.0 and at most 3299.1943359375, the
    voltage of the full-scale reading, hence strictly below Vref. *)
Theorem readADC_voltage_range (l : list Z) :
  List.length l = 12 -> Forall (fun d => d = 0%Z \/ d = 1%Z) l ->
  exists f : float,
    Binary64.voltage 12 3300 0 l = Some f
    /\ (Binary64.of_int 0 <=? f)%float = true
    /\ (f <=? 3299.1943359375)%float = true
    /\ (f <? Binary64.of_int 3300)%float = true.
Proof.
  intros Hlen Hbits. apply all_bits_complete in Hbits. rewrite Hlen in Hbits.
  assert (H : forallb voltage_in_range (all_bits 12) = true)
    by (vm_compute; reflexivity).
  rewrite forallb_forall in H. specialize (H l Hbits).
  unfold voltage_in_range in H.
  destruct (Binary64.voltage 12 3300 0 l) as [f|]; [|discriminate].
  apply andb_prop in H as (H & C). apply andb_prop in H as (A & B).
  exists f. auto.
Qed.

Lemma readADC_voltage_range_witness :
  exists f : float,
    Binary64.voltage 12 3300 0 half_scale = Some f
    /\ (Binary64.of_int 0 <=? f)%float = true
    /\ (f <=? 3299.1943359375)%float = true
    /\ (f <? Binary64.of_int 3300)%float = true.
Proof.
  apply (readADC_voltage_range half_scale); [reflexivity|].
  exact half_scale_bits.
Defined.

(** ** A frame that follows a stray zero *)

Lemma waitForData_skip_window (sdo : nat -> bool) (fuel : nat) (st : State) :
  fed sdo st 0 = false ->
  (exists i, 1 <= i < 4 /\ fed sdo st i = true) ->
  waitForData sdo (S fuel) st = waitForData sdo fuel (sampled sdo 4 st).
Proof.
  unfold fed. rewrite Nat.add_0_r. intros H0 (i & Hi & H1).
  rewrite waitForData_S. unfold stride. rewrite H0.
  replace (frame_at sdo (ahead st)) with false; [reflexivity|].
  symmetry. unfold frame_at. rewrite H0.
  destruct i as [|[|[|[|i]]]]; try lia; rewrite H1; cbn;
    rewrite ?andb_false_r; reflexivity.
Qed.

(** A stray zero, a one, then the four zeros and the data bits [11...] of a
    conversion, and further on four zeros again. *)
Definition stray_zero_line : nat -> bool :=
  line [false; true; false; false; false; false; true; true;
        false; false; false; false].

(** X10.  A conversion that starts two or three bits after a stray zero is
    lost when its first data bit is a one.  Let the line show a zero, a one
    among the bits before bit [j] (with [j] 2 or 3), the four zeros of a
    marker at bits [j] to [j + 3] and a one at bit [j + 4]: the first two
    iterations of the loop of [waitForData] consume bits 0 to 7 without
    detecting anything, and the loop goes on from bit 8; whenever
    [waitForData] returns, the marker it returns on starts at bit 8 or
    later. *)
Theorem waitForData_misses_frame (sdo : nat -> bool) (j : nat) (st : State) :
  2 <= j <= 3 ->
  fed sdo st 0 = false ->
  (exists i, 1 <= i < j /\ fed sdo st i = true) ->
  (forall i, j <= i < j + 4 -> fed sdo st i = false) ->
  fed sdo st (j + 4) = true ->
  (forall fuel,
      waitForData sdo (S (S fuel)) st = waitForData sdo fuel (sampled sdo 8 st))
  /\ waitForData sdo 1 st = OutOfFuel
  /\ forall fuel st',
       waitForData sdo fuel st = Ret st' ->
       exists n, 8 <= n /\ st' = sampled sdo (n + 4) st.
Proof.
  intros Hj H0 (i & Hi & H1) Hm Hd.
  assert (S1 : forall fuel,
             waitForData sdo (S fuel) st
             = waitForData sdo fuel (sampled sdo 4 st)).
  { intros fuel. apply waitForData_skip_window; [exact H0|].
    exists i. split; [lia|exact H1]. }
  assert (S2 : forall fuel,
             waitForData sdo (S fuel) (sampled sdo 4 st)
             = waitForData sdo fuel (sampled sdo 8 st)).
  { intros fuel. change 8 with (4 + 4). rewrite (sampled_add sdo 4 4 st).
    apply waitForData_skip_window.
    - rewrite fed_sampled. apply Hm. lia.
    - exists j. split; [lia|]. rewrite fed_sampled, Nat.add_comm. exact Hd. }
  split; [|split].
  - intros fuel. now rewrite S1, S2.
  - now rewrite S1.
  - intros fuel st' H. destruct fuel as [|[|fuel]].
    + discriminate.
    + rewrite S1 in H. discriminate.
    + rewrite S1, S2 in H. apply waitForData_ret in H as (m & _ & -> & _).
      exists (8 + m). split; [lia|]. rewrite <- sampled_add. f_equal; lia.
Qed.

Lemma waitForData_misses_frame_witness :
  (forall fuel,
      waitForData stray_zero_line (S (S fuel)) boot
      = waitForData stray_zero_line fuel (sampled stray_zero_line 8 boot))
  /\ waitForData stray_zero_line 1 boot = OutOfFuel
  /\ waitForData stray_zero_line 3 boot = Ret (sampled stray_zero_line 12 boot)
  /\ exists n,
       8 <= n
       /\ sampled stray_zero_line 12 boot = sampled stray_zero_line (n + 4) boot.
Proof.
  destruct (waitForData_misses_frame stray_zero_line 2 boot) as (A & B & C).
  - lia.
  - reflexivity.
  - exists 1. split; [lia|reflexivity].
  - intros i Hi. do 2 (destruct i as [|i]; [lia|]).
    do 4 (destruct i as [|i]; [reflexivity|]). lia.
  - reflexivity.
  - assert (W : waitForData stray_zero_line 3 boot
                = Ret (sampled stray_zero_line 12 boot))
      by (vm_compute; reflexivity).
    split; [exact A|]. split; [exact B|]. split; [exact W|].
    exact (C 3 _ W).
Defined.

(** ** The file, the terminal and the wall clock *)

(** The lines [readADC] prints for the records it writes. *)
Definition printed (recs : list file_op) : list message :=
  flat_map (fun op => match op with
                      | FWrite _ v => [MsgMilliVolts v]
                      | FClose => []
                      end) recs.

Lemma printed_app (r1 r2 : list file_op) :
  printed (r1 ++ r2) = printed r1 ++ printed r2.
Proof. apply flat_map_app. Qed.

Lemma print_effects (m : message) (st : State) :
  ADC_file (print m st) = ADC_file st
  /\ stdout (print m st) = stdout st ++ [m]
  /\ now_calls (print m st) = now_calls st.
Proof. now cbn. Qed.

Lemma pulses_quiet (n : nat) (st : State) :
  ADC_file (pulses n st) = ADC_file st /\ stdout (pulses n st) = stdout st
  /\ now_calls (pulses n st) = now_calls st.
Proof.
  revert st; induction n as [|n IH]; intros st; cbn [pulses]; [auto|].
  destruct (IH (pulse st)) as (-> & -> & ->). now cbn.
Qed.

Lemma waitForData_quiet (sdo : nat -> bool) (fuel : nat) (st st' : State) :
  waitForData sdo fuel st = Ret st' ->
  ADC_file st' = ADC_file st /\ stdout st' = stdout st
  /\ now_calls st' = now_calls st.
Proof.
  intros H. apply waitForData_ret in H as (n & _ & -> & _).
  apply sampled_quiet.
Qed.

Lemma startADC_quiet (sdo : nat -> bool) (fuel : nat) (st st' : State) :
  startADC sdo fuel st = Ret st' ->
  ADC_file st' = ADC_file st
  /\ stdout st' = stdout st ++ [MsgStarting; MsgStarted]
  /\ now_calls st' = now_calls st.
Proof.
  intros H. apply startADC_ret in H as (st1 & W & ->).
  apply waitForData_quiet in W as (F & O & N).
  destruct (pulses_quiet 20 st1) as (F' & O' & N').
  destruct (print_effects MsgStarted (pulses 20 st1)) as (-> & -> & ->).
  destruct (print_effects MsgStarting st) as (F0 & O0 & N0).
  rewrite F', O', N', F, O, N, F0, O0, N0, <- app_assoc. auto.
Qed.

Lemma startADC_no_raise (sdo : nat -> bool) (fuel : nat) (st : State)
  (e : exn) (s : State) :
  startADC sdo fuel st <> Raise e s.
Proof.
  unfold startADC.
  destruct (waitForData sdo fuel (print MsgStarting st)) as [st1|e' s'|] eqn:W;
    try discriminate.
  intros _. exact (waitForData_no_raise _ _ _ _ _ W).
Qed.

Lemma finish_effects (sdo : nat -> bool) (now : nat -> string) (cfg : Config)
  (st1 : State) :
  now_calls (finish sdo now cfg st1) = S (now_calls st1)
  /\ exists recs,
       ADC_file (finish sdo now cfg st1) = ADC_file st1 ++ recs
       /\ stdout (finish sdo now cfg st1) = stdout st1 ++ printed recs
       /\ List.length recs <= 1
       /\ Forall (fun op => exists v,
                     op = FWrite (now (now_calls st1)) v
                     /\ (threshold cfg < v)%Q) recs.
Proof.
  destruct (sampled_quiet sdo (resolution cfg) st1) as (F & O & N).
  unfold finish, recorded.
  set (v := toVoltage cfg (raw_value sdo cfg st1)).
  destruct (Qle_bool v (threshold cfg)) eqn:E; cbn [negb].
  - split; [cbn; now rewrite N|]. exists [].
    cbn. rewrite F, O, !app_nil_r. auto.
  - split; [cbn; now rewrite N|]. exists [FWrite (now (now_calls st1)) v].
    cbn. rewrite F, O. repeat split; auto.
    constructor; [|constructor]. exists v. split; [reflexivity|].
    apply Qnot_le_lt. intros Hle. apply Qle_bool_iff in Hle. congruence.
Qed.

Lemma acquisition_effects (sdo : nat -> bool) (now : nat -> string)
  (cfg : Config) (cycles fuel : nat) :
  forall st st',
    acquisition sdo now cfg cycles fuel st = Ret st' ->
    now_calls st' = now_calls st + cycles
    /\ exists recs,
         ADC_file st' = ADC_file st ++ recs
         /\ stdout st' = stdout st ++ printed recs
         /\ List.length recs <= cycles
         /\ Forall (fun op => exists k v,
                       now_calls st <= k < now_calls st + cycles
                       /\ op = FWrite (now k) v
                       /\ (threshold cfg < v)%Q) recs.
Proof.
  induction cycles as [|c IH]; intros st st' H.
  - apply Ret_inj in H. subst st'. split; [lia|]. exists [].
    cbn. rewrite !app_nil_r. auto.
  - cbn [acquisition] in H. apply bind_ret in H as (st1 & R & A).
    apply readADC_ret in R as (n & -> & _).
    destruct (finish_effects sdo now cfg (sampled sdo (n + 4) st))
      as (N1 & r1 & F1 & O1 & L1 & P1).
    destruct (sampled_quiet sdo (n + 4) st) as (Fq & Oq & Nq).
    rewrite Fq, Oq, Nq in *.
    apply IH in A as (N2 & r2 & F2 & O2 & L2 & P2).
    rewrite N1 in *. split; [lia|]. exists (r1 ++ r2).
    rewrite F2, F1, O2, O1, printed_app, length_app, <- !app_assoc.
    repeat split; auto; [lia|]. apply Forall_app. split.
    + eapply Forall_impl; [|exact P1]. intros op (v & -> & Hv).
      exists (now_calls st), v. repeat split; auto; lia.
    + eapply Forall_impl; [|exact P2]. intros op (k & v & Hk & -> & Hv).
      exists k, v. repeat split; auto; lia.
Qed.

(** The session after its start-up and one reading. *)
Definition session_read : State :=
  finish session_line stamp pi_ADC_config (sampled session_line 4 started).

(** X7.  Over any number of cycles of the acquisition loop, the wall clock
    is read once per cycle, whether or not the reading is recorded; the file
    only grows, by at most one record per cycle; each record added carries a
    timestamp taken during these cycles and a voltage strictly above the
    threshold, and is echoed on the terminal by one line; the file is never
    closed by the loop. *)
Theorem acquisition_records (sdo : nat -> bool) (now : nat -> string)
  (cfg : Config) (cycles fuel : nat) (st st' : State) :
  acquisition sdo now cfg cycles fuel st = Ret st' ->
  now_calls st' = now_calls st + cycles
  /\ exists recs,
       ADC_file st' = ADC_file st ++ recs
       /\ stdout st' = stdout st ++ printed recs
       /\ List.length (printed recs) = List.length recs
       /\ List.length recs <= cycles
       /\ ~ In FClose recs
       /\ Forall (fun op => exists k v,
                     now_calls st <= k < now_calls st + cycles
                     /\ op = FWrite (now k) v
                     /\ (threshold cfg < v)%Q) recs.
Proof.
  intros H. apply acquisition_effects in H as (N & recs & F & O & L & P).
  split; [exact N|]. exists recs.
  split; [exact F|]. split; [exact O|]. split; [|split; [exact L|split]].
  - clear F O L. unfold printed.
    induction P as [|op recs (k & v & _ & -> & _) _ IH]; [reflexivity|].
    cbn [flat_map app List.length]. now rewrite IH.
  - intros Hin. rewrite Forall_forall in P.
    destruct (P _ Hin) as (k & v & _ & E & _). discriminate.
  - exact P.
Qed.

Lemma acquisition_records_witness :
  acquisition session_line stamp pi_ADC_config 1 1 started = Ret session_read
  /\ now_calls session_read = now_calls started + 1
  /\ exists recs,
       ADC_file session_read = ADC_file started ++ recs
       /\ stdout session_read = stdout started ++ printed recs
       /\ List.length (printed recs) = List.length recs
       /\ List.length recs <= 1
       /\ ~ In FClose recs
       /\ Forall (fun op => exists k v,
                     now_calls started <= k < now_calls started + 1
                     /\ op = FWrite (stamp k) v
                     /\ (threshold pi_ADC_config < v)%Q) recs.
Proof.
  split; [vm_compute; reflexivity|].
  apply (acquisition_records session_line stamp pi_ADC_config 1 1 started).
  vm_compute; reflexivity.
Defined.

(** X9.  The marker search and the start-up act on the GPIO pins only:
    when [waitForData] returns, the file, the terminal and the number of
    wall-clock readings are what they were; when [startADC] returns, the file
    and the wall clock are untouched and the terminal has gained its two
    lines, 'Starting ADC' and 'ADC started!', and nothing else. *)
Theorem gpio_only_effects (sdo : nat -> bool) (fuel : nat) (st st' : State) :
  (waitForData sdo fuel st = Ret st' ->
   ADC_file st' = ADC_file st /\ stdout st' = stdout st
   /\ now_calls st' = now_calls st)
  /\ (startADC sdo fuel st = Ret st' ->
      ADC_file st' = ADC_file st
      /\ stdout st' = stdout st ++ [MsgStarting; MsgStarted]
      /\ now_calls st' = now_calls st).
Proof.
  split; intros H.
  - now apply waitForData_quiet in H.
  - now apply startADC_quiet in H.
Qed.

Lemma gpio_only_effects_witness :
  startADC session_line 1 boot = Ret started
  /\ ADC_file started = ADC_file boot
  /\ stdout started = stdout boot ++ [MsgStarting; MsgStarted]
  /\ now_calls started = now_calls boot.
Proof.
  assert (S : startADC session_line 1 boot = Ret started)
    by (vm_compute; reflexivity).
  split; [exact S|].
  exact (proj2 (gpio_only_effects session_line 1 boot started) S).
Defined.

(** ** The script's arithmetic on its own constants *)

(** X5.  With the constants of the script (twelve bits, Vref = 3300,
    offset = 0, threshold = 200), for every list of twelve samples the
    binary64 computation of lines 86-91 yields a finite number that is
    exactly the rational [(raw / 4096) * 3300]: no rounding occurs; and the
    comparison of line 97 on binary64 numbers gives the verdict of the
    comparison on rationals. *)
Theorem binary64_no_rounding (l : list Z) :
  List.length l = 12 -> Forall (fun d => d = 0%Z \/ d = 1%Z) l ->
  exists (f : float) (q q' : Q),
    Binary64.voltage 12 3300 0 l = Some f
    /\ voltage pi_ADC_config l = Some q
    /\ Binary64.exact f = Some q'
    /\ (q == q')%Q
    /\ Binary64.above 200 f = negb (Qle_bool q (threshold pi_ADC_config)).
Proof.
  intros Hlen Hbits. pose proof (binary64_exact l Hlen Hbits) as H.
  unfold agree in H.
  change (voltage (int_config 12 3300 0 200) l)
    with (voltage pi_ADC_config l) in H.
  destruct (Binary64.voltage 12 3300 0 l) as [f|]; [|discriminate].
  destruct (voltage pi_ADC_config l) as [q|]; [|discriminate].
  destruct (Binary64.exact f) as [q'|] eqn:X; [|discriminate].
  apply andb_prop in H as (E & V).
  exists f, q, q'.
  split; [reflexivity|]. split; [reflexivity|]. split; [exact X|].
  split; [now apply Qeq_bool_iff|]. now apply Bool.eqb_prop in V.
Qed.

Lemma binary64_no_rounding_witness :
  exists (f : float) (q q' : Q),
    Binary64.voltage 12 3300 0 half_scale = Some f
    /\ voltage pi_ADC_config half_scale = Some q
    /\ Binary64.exact f = Some q'
    /\ (q == q')%Q
    /\ Binary64.above 200 f = negb (Qle_bool q (threshold pi_ADC_config)).
Proof.
  apply (binary64_no_rounding half_scale); [reflexivity|].
  exact half_scale_bits.
Defined.

(** X6.  With the constants of the script, the readings that pass the test
    of line 97, as Python evaluates it on binary64 numbers, are exactly
    those whose twelve bits, first bit most significant, make an integer of
    249 or more: the software threshold of 200 mV is a threshold of 249 on
    the raw reading. *)
Theorem threshold_on_raw_reading (l : list Z) :
  List.length l = 12 -> Forall (fun d => d = 0%Z \/ d = 1%Z) l ->
  exists f : float,
    Binary64.voltage 12 3300 0 l = Some f
    /\ (Binary64.above 200 f = true
        <-> (249 <= msb_first 12 (fun i => nth i l 0%Z))%Z).
Proof.
  intros Hlen Hbits. apply all_bits_complete in Hbits. rewrite Hlen in Hbits.
  assert (H : forallb
                (fun l =>
                   match Binary64.voltage 12 3300 0 l with
                   | Some f =>
                       Bool.eqb (Binary64.above 200 f)
                         (249 <=? msb_first 12 (fun i => nth i l 0%Z))%Z
                   | None => false
                   end) (all_bits 12) = true)
    by (vm_compute; reflexivity).
  rewrite forallb_forall in H. specialize (H l Hbits).
  destruct (Binary64.voltage 12 3300 0 l) as [f|]; [|discriminate].
  exists f. split; [reflexivity|].
  apply Bool.eqb_prop in H. rewrite H. apply Z.leb_le.
Qed.

Lemma threshold_on_raw_reading_witness :
  exists f : float,
    Binary64.voltage 12 3300 0 half_scale = Some f
    /\ (Binary64.above 200 f = true
        <-> (249 <= msb_first 12 (fun i => nth i half_scale 0%Z))%Z).
Proof.
  apply (threshold_on_raw_reading half_scale); [reflexivity|].
  exact half_scale_bits.
Defined.

(** The two readings on either side of the threshold: 248 gives 199.8 mV,
    249 gives 200.6 mV. *)
Example threshold_neighbours :
  Binary64.voltage 12 3300 0 (map Z.b2z (encode 12 248))
  = Some 199.8046875%float
  /\ Binary64.voltage 12 3300 0 (map Z.b2z (encode 12 249))
     = Some 200.6103515625%float.
Proof. split; vm_compute; reflexivity. Qed.

(** ** A converter that never converts *)

Lemma waitForData_idle (idle : nat -> bool) :
  (forall k, idle k = true) ->
  forall fuel st, waitForData idle fuel st = OutOfFuel.
Proof.
  intros Hhigh fuel st. rewrite waitForData_search.
  now rewrite search_idle.
Qed.

(** X11.  On a line that stays high -- the pulled-up line of a converter that
    is never triggered -- none of the callers of [waitForData] returns or
    raises, for any loop bound: [startADC] stays in its marker search after
    printing 'Starting ADC' and never reaches its flush, [readADC] records
    nothing, and [main] never gets to its acquisition loop nor to its
    [except] clause. *)
Theorem idle_line_blocks (idle : nat -> bool) (now : nat -> string)
  (cfg : Config) (cycles fuel : nat) (st : State) :
  (forall k, idle k = true) ->
  startADC idle fuel st = OutOfFuel
  /\ readADC idle now cfg fuel st = OutOfFuel
  /\ main idle now cfg cycles fuel st = OutOfFuel.
Proof.
  intros Hhigh.
  assert (S : startADC idle fuel st = OutOfFuel).
  { unfold startADC. now rewrite (waitForData_idle idle Hhigh). }
  split; [exact S|]. split.
  - now rewrite readADC_eq, (waitForData_idle idle Hhigh).
  - unfold main. now rewrite S.
Qed.

Lemma idle_line_blocks_witness :
  startADC (line []) 100 boot = OutOfFuel
  /\ readADC (line []) stamp pi_ADC_config 100 boot = OutOfFuel
  /\ main (line []) stamp pi_ADC_config 3 100 boot = OutOfFuel.
Proof.
  apply (idle_line_blocks (line []) stamp pi_ADC_config 3 100 boot).
  intros k. unfold line. destruct k; reflexivity.
Defined.

(** ** An exception that arrives at any moment

    The exception that ends [main] (an interrupt from the keyboard, a
    signal) is not raised by the script: Python delivers it between two
    instructions, wherever the program is.  Below, the script runs with the
    number of effects (GPIO calls, lines printed, readings of the wall
    clock, lines written) it still performs before the exception arrives;
    the effect that finds this number at zero raises [KeyboardInterrupt]
    instead of taking place. *)

Definition istate : Set := (nat * State)%type.

(** One effect that yields a value. *)
Definition effect {A : Type} (f : State -> A * State) (s : istate)
  : outcome (A * istate) :=
  match fst s with
  | O => Raise KeyboardInterrupt (snd s)
  | S k => let (a, st') := f (snd s) in Ret (a, (k, st'))
  end.

(** One effect that yields nothing. *)
Definition effect_ (f : State -> State) (s : istate) : outcome istate :=
  match fst s with
  | O => Raise KeyboardInterrupt (snd s)
  | S k => Ret (k, f (snd s))
  end.

Section Interrupts.

Variable sdo : nat -> bool.
Variable now : nat -> string.
Variable cfg : Config.

Definition pulse_i (s : istate) : outcome istate :=
  s1 <- effect_ (GPIO_output LOW) s ;; effect_ (GPIO_output HIGH) s1.

Fixpoint pulses_i (n : nat) (s : istate) : outcome istate :=
  match n with
  | O => Ret s
  | S n' => s1 <- pulse_i s ;; pulses_i n' s1
  end.

Fixpoint confirm_i (n : nat) (dataDetected : bool) (s : istate)
  : outcome (bool * istate) :=
  match n with
  | O => Ret (dataDetected, s)
  | S n' =>
      s1 <- pulse_i s ;;
      r <- effect (GPIO_input sdo) s1 ;;
      confirm_i n' (if fst r then false else dataDetected) (snd r)
  end.

Definition wait_body_i (s : istate) : outcome (bool * istate) :=
  s1 <- pulse_i s ;;
  r <- effect (GPIO_input sdo) s1 ;;
  if negb (fst r) then confirm_i 3 true (snd r) else Ret (false, snd r).

(** [waitForData()] *)
Fixpoint waitForData_i (fuel : nat) (s : istate) : outcome istate :=
  match fuel with
  | O => OutOfFuel
  | S fuel' =>
      r <- wait_body_i s ;;
      if fst r then Ret (snd r) else waitForData_i fuel' (snd r)
  end.

(** [startADC()] *)
Definition startADC_i (fuel : nat) (s : istate) : outcome istate :=
  s0 <- effect_ (print MsgStarting) s ;;
  s1 <- waitForData_i fuel s0 ;;
  s2 <- pulses_i 20 s1 ;;
  effect_ (print MsgStarted) s2.

Fixpoint read_loop_i (n j : nat) (validDataList : list Z) (s : istate)
  : outcome (list Z * istate) :=
  match n with
  | O => Ret (validDataList, s)
  | S n' =>
      match nth_error validDataList j with
      | None => Ret (validDataList, s)
      | Some i =>
          s1 <- pulse_i s ;;
          r <- effect (GPIO_input sdo) s1 ;;
          match list_setitem validDataList i (Z.b2z (fst r)) with
          | Some l' => read_loop_i n' (S j) l' (snd r)
          | None => Raise IndexError (snd (snd r))
          end
      end
  end.

(** [readADC()] *)
Definition readADC_i (fuel : nat) (s : istate) : outcome istate :=
  s1 <- waitForData_i fuel s ;;
  r <- read_loop_i (resolution cfg) 0 (range (resolution cfg)) s1 ;;
  let (l, s2) := r : list Z * istate in
  if pow_overflow (resolution cfg - 1) then Raise OverflowError (snd s2) else
  match sum_loop cfg (resolution cfg) 0 l 0 with
  | None => Raise IndexError (snd s2)
  | Some raw =>
      if pow_overflow (resolution cfg) then Raise OverflowError (snd s2) else
      let v := toVoltage cfg raw in
      t <- effect (datetime_now now) s2 ;;
      if negb (Qle_bool v (threshold cfg))
      then s3 <- effect_ (print (MsgMilliVolts v)) (snd t) ;;
           effect_ (ADC_file_write (fst t) v) s3
      else Ret (snd t)
  end.

(** The [while True] loop of [main], lines 107-109: it has no exit of its
    own.  [cycles] bounds its iterations. *)
Fixpoint forever_i (cycles fuel : nat) (s : istate) : outcome Empty_set :=
  match cycles with
  | O => OutOfFuel
  | S c => s1 <- readADC_i fuel s ;; forever_i c fuel s1
  end.

(** [main()], lines 102-114.  [startADC()] is called before the [try]
    statement: an exception that arrives during the start-up, or once it is
    over and the [try] has not been entered yet, leaves [main] as it is; one
    that arrives or is raised inside the [try] runs the [except] clause. *)
Definition main_i (cycles fuel : nat) (s : istate) : outcome State :=
  s1 <- startADC_i fuel s ;;
  s2 <- effect_ (fun st => st) s1 ;;
  match forever_i cycles fuel s2 with
  | Ret x => match x with end
  | Raise _ st2 => except_clause cfg st2
  | OutOfFuel => OutOfFuel
  end.

End Interrupts.

(** *** What no run of [main] does *)



















Section Soundness.

Variable sdo : nat -> bool.
Variable now : nat -> string.
Variable cfg : Config.












End Soundness.

(** *** Without the exception: the same program *)

Section Agreement.

Variable sdo : nat -> bool.
Variable now : nat -> string.
Variable cfg : Config.

Lemma effect__ret (f : State -> State) (s s' : istate) :
  effect_ f s = Ret s' -> snd s' = f (snd s).
Proof.
  unfold effect_. destruct (fst s); [discriminate|].
  intros H. apply Ret_inj in H. now subst s'.
Qed.

Lemma effect_ret {A : Type} (f : State -> A * State) (s : istate)
  (r : A * istate) :
  effect f s = Ret r -> (fst r, snd (snd r)) = f (snd s).
Proof.
  unfold effect. destruct (fst s); [discriminate|].
  destruct (f (snd s)) as [a st']. intros H. apply Ret_inj in H. now subst r.
Qed.

Lemma pulse_i_ret (s s' : istate) :
  pulse_i s = Ret s' -> snd s' = pulse (snd s).
Proof.
  unfold pulse_i. intros H. apply bind_ret in H as (s1 & H1 & H2).
  apply effect__ret in H1, H2. unfold pulse. now rewrite H2, H1.
Qed.

Lemma sample_i_ret (s : istate) (r : bool * istate) :
  (s1 <- pulse_i s ;; effect (GPIO_input sdo) s1) = Ret r ->
  (fst r, snd (snd r)) = GPIO_input sdo (pulse (snd s)).
Proof.
  intros H. apply bind_ret in H as (s1 & H1 & H2).
  apply pulse_i_ret in H1. apply effect_ret in H2. now rewrite H2, H1.
Qed.

Lemma bind_assoc {A B C : Type} (m : outcome A) (k : A -> outcome B)
  (h : B -> outcome C) :
  bind (bind m k) h = bind m (fun a => bind (k a) h).
Proof. destruct m; reflexivity. Qed.

Lemma confirm_i_ret (n : nat) :
  forall d s r,
    confirm_i sdo n d s = Ret r ->
    (fst r, snd (snd r)) = confirm sdo n d (snd s).
Proof.
  induction n as [|n IH]; intros d s r H; cbn [confirm_i confirm] in *.
  - apply Ret_inj in H. now subst r.
  - rewrite <- (bind_assoc (pulse_i s)) in H.
    apply bind_ret in H as (r1 & H1 & H2).
    apply sample_i_ret in H1. apply IH in H2.
    rewrite <- H1. exact H2.
Qed.

Lemma wait_body_i_ret (s : istate) (r : bool * istate) :
  wait_body_i sdo s = Ret r ->
  (fst r, snd (snd r)) = wait_body sdo (snd s).
Proof.
  unfold wait_body_i, wait_body. intros H.
  rewrite <- (bind_assoc (pulse_i s)) in H.
  apply bind_ret in H as (r1 & H1 & H2).
  apply sample_i_ret in H1. rewrite <- H1.
  destruct (negb (fst r1)).
  - now apply confirm_i_ret in H2.
  - apply Ret_inj in H2. now subst r.
Qed.

(** A marker search that no exception cuts short is the plain one. *)
Lemma waitForData_i_ret (fuel : nat) :
  forall s s',
    waitForData_i sdo fuel s = Ret s' ->
    waitForData sdo fuel (snd s) = Ret (snd s').
Proof.
  induction fuel as [|f IH]; intros s s' H; [discriminate|].
  cbn [waitForData_i waitForData] in *.
  apply bind_ret in H as (r & H1 & H2). apply wait_body_i_ret in H1.
  rewrite <- H1. destruct (fst r).
  - apply Ret_inj in H2. now subst s'.
  - now apply IH.
Qed.

Lemma pulses_i_ret (n : nat) :
  forall s s', pulses_i n s = Ret s' -> snd s' = pulses n (snd s).
Proof.
  induction n as [|n IH]; intros s s' H; cbn [pulses_i pulses] in *.
  - apply Ret_inj in H. now subst s'.
  - apply bind_ret in H as (s1 & H1 & H2). apply pulse_i_ret in H1.
    apply IH in H2. now rewrite H2, H1.
Qed.

(** A start-up that no exception cuts short is the plain one. *)
Lemma startADC_i_ret (fuel : nat) (s s' : istate) :
  startADC_i sdo fuel s = Ret s' ->
  startADC sdo fuel (snd s) = Ret (snd s').
Proof.
  unfold startADC_i. intros H.
  apply bind_ret in H as (s0 & H0 & H).
  apply bind_ret in H as (s1 & H1 & H).
  apply bind_ret in H as (s2 & H2 & H3).
  apply effect__ret in H0, H3. apply waitForData_i_ret in H1.
  apply pulses_i_ret in H2.
  unfold startADC. rewrite <- H0, H1. unfold bind.
  now rewrite H3, H2.
Qed.

Lemma read_loop_i_ret (n : nat) :
  forall j l s r,
    read_loop_i sdo n j l s = Ret r ->
    read_loop sdo n j l (snd s) = Ret (fst r, snd (snd r)).
Proof.
  induction n as [|n IH]; intros j l s r H; cbn [read_loop_i read_loop] in *.
  - apply Ret_inj in H. now subst r.
  - destruct (nth_error l j) as [i|].
    + rewrite <- (bind_assoc (pulse_i s)) in H.
      apply bind_ret in H as (r1 & H1 & H2).
      apply sample_i_ret in H1. rewrite <- H1.
      destruct (list_setitem l i (Z.b2z (fst r1))); [|discriminate].
      now apply IH.
    + apply Ret_inj in H. now subst r.
Qed.

(** A reading that no exception cuts short is the plain one. *)
Lemma readADC_i_ret (fuel : nat) (s s' : istate) :
  readADC_i sdo now cfg fuel s = Ret s' ->
  readADC sdo now cfg fuel (snd s) = Ret (snd s').
Proof.
  unfold readADC_i, readADC, readADC_frame. intros H.
  apply bind_ret in H as (s1 & H1 & H).
  apply bind_ret in H as ([l s2] & H2 & H).
  apply waitForData_i_ret in H1. apply read_loop_i_ret in H2.
  rewrite H1. cbn [bind]. rewrite H2. cbn [bind fst snd] in *.
  destruct (pow_overflow (resolution cfg - 1)); [discriminate|].
  destruct (sum_loop cfg (resolution cfg) 0 l 0) as [raw|]; [|discriminate].
  destruct (pow_overflow (resolution cfg)); [discriminate|].
  cbv zeta in H. apply bind_ret in H as ([dt s3] & H3 & H).
  apply effect_ret in H3. cbn [fst snd] in H3, H. rewrite <- H3.
  destruct (negb _).
  - apply bind_ret in H as (s4 & H4 & H5). apply effect__ret in H4, H5.
    cbn [bind snd]. now rewrite H5, H4.
  - apply Ret_inj in H. now subst s'.
Qed.

End Agreement.

(** *** Every run of [main] *)

Section Liveness.

Variable sdo : nat -> bool.
Variable now : nat -> string.
Variable cfg : Config.














End Liveness.

(** A session cut short in the middle of its second reading: the exception
    arrives after 200 effects. *)
Definition interrupted : istate := (200, boot).



(** On the session line: an exception due after 10 effects arrives during
    the start-up and leaves [main] as it is; due after 54 effects it arrives
    when the start-up is just over, before the [try]; due after 200 effects
    it arrives during the second reading, the [except] clause fails and the
    file holds the record of the first reading. *)
Example main_interrupted :
  (exists st2,
      main_i session_line stamp pi_ADC_config 201 201 (10, boot)
      = Raise KeyboardInterrupt st2
      /\ stdout st2 = [MsgStarting] /\ ADC_file st2 = [])
  /\ (exists st2,
        main_i session_line stamp pi_ADC_config 201 201 (54, boot)
        = Raise KeyboardInterrupt st2
        /\ st2 = started)
  /\ (exists st2 v,
        main_i session_line stamp pi_ADC_config 201 201 interrupted
        = Raise (NameError "dt_string") st2
        /\ ADC_file st2 = [FWrite (stamp 0) v] /\ (v == 1650)%Q).
Proof.
  split; [|split].
  - eexists. split; [vm_compute; reflexivity|]. split; reflexivity.
  - eexists. split; [vm_compute; reflexivity|]. vm_compute; reflexivity.
  - do 2 eexists. split; [vm_compute; reflexivity|]. split; reflexivity.
Qed.
